(** * sdbusplus/server/object.hpp: composition of D-Bus interface bindings
      into one object, and the object-added / object-removed signalling
      around its lifetime.

    The header is a C++ template; what it does at run time is a sequence of
    calls into code it does not own: the constructors, destructors and
    [emit_added] of the interface classes [Args...], and the two sd-bus
    entry points reached through [SdBusInterface].  The embedding keeps
    those calls as events of a trace, in program order, and lets every
    external call answer as a function of the trace so far. *)

From Stdlib Require Import List String ZArith Bool Arith Lia.
Import ListNotations.
Local Open Scope string_scope.
Local Open Scope list_scope.

(** ** External calls and the trace *)

(** What an exception carries is irrelevant here; it is only ever passed on. *)
Definition exn := string.

(** [sd_bus*]: the raw connection pointer, [0] for [nullptr]. *)
Definition sd_bus := Z.

(** The result of a call whose value the header discards: the callee either
    returns its [int] status or throws.  sd-bus reports failure as a negative
    errno-style status. *)
Inductive call_result :=
| Returns (rc : Z)
| Throws (e : exn).

Definition succeeded (r : call_result) : bool :=
  match r with
  | Returns rc => (0 <=? rc)%Z
  | Throws _ => false
  end.

Definition returned (r : call_result) : bool :=
  match r with
  | Returns _ => true
  | Throws _ => false
  end.

Inductive event :=
| EvModuleCtor (intf : string) (bus : sd_bus) (path : string)
    (* T(bus, path) entered *)
| EvModuleDtor (intf : string)
    (* ~T() *)
| EvModuleMove (intf : string)
    (* T(T&&) *)
| EvBusCtor (bus : sd_bus)
    (* the member bus::bus(bus.get(), bus.getInterface()) *)
| EvBusDtor (bus : sd_bus)
    (* ~bus::bus() of the member *)
| EvInterfaceAdded (intf : string)
    (* T::emit_added() *)
| EvObjectAdded (bus : sd_bus) (path : string) (r : call_result)
    (* intf->sd_bus_emit_object_added(bus, path) and how it came back *)
| EvObjectRemoved (bus : sd_bus) (path : string) (r : call_result).
    (* intf->sd_bus_emit_object_removed(bus, path) and how it came back *)

Definition trace := list event.

Definition is_module_ctor (ev : event) : bool :=
  match ev with EvModuleCtor _ _ _ => true | _ => false end.

Definition not_module_ctor (ev : event) : bool := negb (is_module_ctor ev).

Definition is_teardown (ev : event) : bool :=
  match ev with EvModuleDtor _ | EvBusDtor _ => true | _ => false end.

Definition is_object_added (ev : event) : bool :=
  match ev with EvObjectAdded _ _ _ => true | _ => false end.

Definition is_object_removed (ev : event) : bool :=
  match ev with EvObjectRemoved _ _ _ => true | _ => false end.

Definition is_interface_added (ev : event) : bool :=
  match ev with EvInterfaceAdded _ => true | _ => false end.

Definition is_notification (ev : event) : bool :=
  is_object_added ev || is_interface_added ev || is_object_removed ev.

(** An object-added call that came back with a non-negative status. *)
Definition added_successfully (ev : event) : bool :=
  match ev with EvObjectAdded _ _ r => succeeded r | _ => false end.

(** An object-added call that came back at all. *)
Definition added_returned (ev : event) : bool :=
  match ev with EvObjectAdded _ _ r => returned r | _ => false end.

Definition count (p : event -> bool) (t : trace) : nat :=
  List.length (filter p t).

(** ** Computations

    A computation reads the trace so far and yields an outcome together with
    the events it added.  [Threw] is a C++ exception in flight, [Terminated]
    is [std::terminate]. *)

Inductive outcome (A : Type) :=
| Normal (a : A)
| Threw (e : exn)
| Terminated.
Arguments Normal {A} a.
Arguments Threw {A} e.
Arguments Terminated {A}.

Definition Exec (A : Type) := trace -> outcome A * trace.

Definition ret {A} (a : A) : Exec A := fun _ => (Normal a, []).

Definition bind {A B} (c : Exec A) (k : A -> Exec B) : Exec B :=
  fun h =>
    match c h with
    | (Normal a, d1) => let (r, d2) := k a (h ++ d1) in (r, d1 ++ d2)
    | (Threw e, d1) => (Threw e, d1)
    | (Terminated, d1) => (Terminated, d1)
    end.

Declare Scope exec_scope.
Delimit Scope exec_scope with exec.
Notation "x <- c ;; k" := (bind c (fun x => k))
  (at level 100, c at next level, right associativity) : exec_scope.
Notation "c ;; k" := (bind c (fun _ => k))
  (at level 100, right associativity) : exec_scope.
Local Open Scope exec_scope.

Definition log (ev : event) : Exec unit := fun _ => (Normal tt, [ev]).

(** Stack unwinding: when [c] throws, [cleanup] (the destructors of what was
    already built) runs and the exception goes on.  An exception leaving a
    destructor during unwinding ends the program. *)
Definition unwind_with {A} (c : Exec A) (cleanup : Exec unit) : Exec A :=
  fun h =>
    match c h with
    | (Threw e, d1) =>
        match cleanup (h ++ d1) with
        | (Normal _, d2) => (Threw e, d1 ++ d2)
        | (_, d2) => (Terminated, d1 ++ d2)
        end
    | other => other
    end.

(** A destructor is [noexcept]: an exception that would leave it ends the
    program instead. *)
Definition noexcept {A} (c : Exec A) : Exec A :=
  fun h =>
    match c h with
    | (Threw _, d) => (Terminated, d)
    | other => other
    end.

(** The sd-bus entry points the header reaches through
    [__sdbusplus_server_object_intf].  The declaration lives in
    <sdbusplus/sdbus.hpp>; here it is whatever the caller supplies. *)
Record SdBusInterface := {
  sd_bus_emit_object_added : trace -> sd_bus -> string -> call_result;
  sd_bus_emit_object_removed : trace -> sd_bus -> string -> call_result
}.

(** [bus::bus], as far as the header uses it: [get()] and [getInterface()]. *)
Record bus_t := {
  get : sd_bus;
  getInterface : SdBusInterface
}.

(** One of the classes [Args...]: its constructor [T(bus, path)] and its
    [emit_added()], each of which completes ([None]) or throws. *)
Record InterfaceModule := {
  intf_name : string;
  intf_ctor : trace -> bus_t -> string -> option exn;
  intf_emit_added : trace -> option exn
}.

Definition ctor_event (bus : bus_t) (path : string) (T : InterfaceModule) : event :=
  EvModuleCtor (intf_name T) (get bus) path.

Definition dtor_event (T : InterfaceModule) : event :=
  EvModuleDtor (intf_name T).

Definition added_event (T : InterfaceModule) : event :=
  EvInterfaceAdded (intf_name T).

(** [T(bus, path)] *)
Definition module_ctor (T : InterfaceModule) (bus : bus_t) (path : string)
  : Exec InterfaceModule :=
  fun h =>
    (match intf_ctor T h bus path with
     | None => Normal T
     | Some e => Threw e
     end, [ctor_event bus path T]).

(** [~T()], which does not throw. *)
Definition module_dtor (T : InterfaceModule) : Exec unit :=
  log (dtor_event T).

(** [T::emit_added()] *)
Definition emit_added (T : InterfaceModule) : Exec unit :=
  fun h =>
    (match intf_emit_added T h with
     | None => Normal tt
     | Some e => Threw e
     end, [added_event T]).

(** ** namespace details *)

Module details.

(** The base subobjects of a [compose<Args...>], in declaration order. *)
Definition aggregate := list InterfaceModule.

(** Destruction of the base subobjects: reverse order of construction. *)
Fixpoint destroy (agg : aggregate) : Exec unit :=
  match agg with
  | [] => ret tt
  | T :: Rest => destroy Rest ;; module_dtor T
  end.

(** [compose_impl<T, Rest...>]: [T(bus, path)], then
    [compose_impl<Rest...>(bus, path)]; the single-element specialisation
    is the [Rest = []] branch. *)
Fixpoint compose_impl (T : InterfaceModule) (Rest : list InterfaceModule)
    (bus : bus_t) (path : string) : Exec aggregate :=
  match Rest with
  | [] =>
      t <- module_ctor T bus path ;;
      ret [t]
  | T' :: Rest' =>
      t <- module_ctor T bus path ;;
      unwind_with
        (rest <- compose_impl T' Rest' bus path ;; ret (t :: rest))
        (module_dtor t)
  end.

(** [compose<Args...>], with [compose<>] as the empty branch. *)
Definition compose (Args : list InterfaceModule) (bus : bus_t) (path : string)
  : Exec aggregate :=
  match Args with
  | [] => ret []
  | T :: Rest => compose_impl T Rest bus path
  end.

End details.

(** ** struct object *)

Inductive action :=
| EMIT_OBJECT_ADDED
| EMIT_INTERFACE_ADDED
| DEFER_EMIT.

(** An [object<Args...>]: the [compose<Args...>] base and the five private
    members, in declaration order. *)
Record object := {
  compose_base : details.aggregate;
  __sdbusplus_server_object_bus : bus_t;
  __sdbusplus_server_object_path : string;
  __sdbusplus_server_object_emitremoved : bool;
  __sdbusplus_server_object_intf : SdBusInterface;
  __action : action
}.

Definition set_emitremoved (this : object) (b : bool) : object :=
  {| compose_base := compose_base this;
     __sdbusplus_server_object_bus := __sdbusplus_server_object_bus this;
     __sdbusplus_server_object_path := __sdbusplus_server_object_path this;
     __sdbusplus_server_object_emitremoved := b;
     __sdbusplus_server_object_intf := __sdbusplus_server_object_intf this;
     __action := __action this |}.

(** A call through the interface pointer, used as an expression statement:
    the status that comes back is dropped, an exception is not. *)
Definition call_discarding
    (f : trace -> sd_bus -> string -> call_result)
    (ev : sd_bus -> string -> call_result -> event)
    (bus : sd_bus) (path : string) : Exec unit :=
  fun h =>
    let r := f h bus path in
    (match r with
     | Returns _ => Normal tt
     | Throws e => Threw e
     end, [ev bus path r]).

(** [(Args::emit_added(), ...)]: a fold over the comma operator, left to
    right. *)
Fixpoint emit_added_fold (Args : list InterfaceModule) : Exec unit :=
  match Args with
  | [] => ret tt
  | T :: Rest => emit_added T ;; emit_added_fold Rest
  end.

(** A member function reads and writes [*this] as it goes: it is run on the
    object as it stands and hands back the object as it has left it,
    whether it returns or throws. *)
Definition Method (A : Type) := object -> trace -> outcome A * object * trace.

Definition mret {A} (a : A) : Method A :=
  fun this _ => (Normal a, this, []).

Definition mbind {A B} (c : Method A) (k : A -> Method B) : Method B :=
  fun this h =>
    match c this h with
    | (Normal a, this1, d1) =>
        let '(r, this2, d2) := k a this1 (h ++ d1) in (r, this2, d1 ++ d2)
    | (Threw e, this1, d1) => (Threw e, this1, d1)
    | (Terminated, this1, d1) => (Terminated, this1, d1)
    end.

Declare Scope method_scope.
Delimit Scope method_scope with method.
Notation "c ;; k" := (mbind c (fun _ => k))
  (at level 100, right associativity) : method_scope.

(** A statement that calls out and leaves [*this] alone. *)
Definition external {A} (c : Exec A) : Method A :=
  fun this h => let (r, d) := c h in (r, this, d).

(** [__sdbusplus_server_object_emitremoved = b;] *)
Definition assign_emitremoved (b : bool) : Method unit :=
  fun this _ => (Normal tt, set_emitremoved this b, []).

(** The bodies of the member functions, statement by statement. *)
Module body.

(** [void emit_object_added()]: the test, then the call, then the
    assignment. *)
Definition emit_object_added : Method unit :=
  fun this =>
    (if negb (__sdbusplus_server_object_emitremoved this) then
       (external
          (call_discarding
             (sd_bus_emit_object_added (__sdbusplus_server_object_intf this))
             EvObjectAdded
             (get (__sdbusplus_server_object_bus this))
             (__sdbusplus_server_object_path this)) ;;
        assign_emitremoved true)%method
     else mret tt) this.

(** [void check_action()] *)
Definition check_action : Method unit :=
  fun this =>
    match __action this with
    | EMIT_OBJECT_ADDED => emit_object_added
    | EMIT_INTERFACE_ADDED => external (emit_added_fold (compose_base this))
    | DEFER_EMIT => mret tt
    end this.

End body.

(** A member function seen by a caller that goes on only when it returns:
    the object after the call, or the exception. *)
Definition returning {A} (m : Method A) (this : object) : Exec object :=
  fun h =>
    match m this h with
    | (Normal _, this', d) => (Normal this', d)
    | (Threw e, _, d) => (Threw e, d)
    | (Terminated, _, d) => (Terminated, d)
    end.

(** [this->emit_object_added()] *)
Definition emit_object_added (this : object) : Exec object :=
  returning body.emit_object_added this.

(** [this->check_action()] *)
Definition check_action (this : object) : Exec object :=
  returning body.check_action this.

(** Destruction of the members and then of the base, as happens after the
    destructor body, or during unwinding out of the constructor body. *)
Definition destroy_subobjects (this : object) : Exec unit :=
  log (EvBusDtor (get (__sdbusplus_server_object_bus this))) ;;
  details.destroy (compose_base this).

(** The members as the mem-initializer list leaves them, before the
    constructor body runs. *)
Definition initial_object (base : details.aggregate) (bus : bus_t)
    (path : string) (act : action) : object :=
  {| compose_base := base;
     __sdbusplus_server_object_bus :=
       {| get := get bus; getInterface := getInterface bus |};
     __sdbusplus_server_object_path := path;
     __sdbusplus_server_object_emitremoved := false;
     __sdbusplus_server_object_intf := getInterface bus;
     __action := act |}.

(** [object(bus::bus& bus, const char* path, action act)]: the base, the
    members, then the body [check_action()].  An exception out of the body
    unwinds members and base; the destructor body does not run for an
    object whose constructor did not complete.  The member initialisers
    themselves are taken to complete: what is followed here is a
    construction in which the copy of the bus handle and of the path
    string succeed. *)
Definition object_ctor (Args : list InterfaceModule) (bus : bus_t)
    (path : string) (act : action) : Exec object :=
  base <- details.compose Args bus path ;;
  log (EvBusCtor (get bus)) ;;
  let this := initial_object base bus path act in
  unwind_with (check_action this) (destroy_subobjects this).

(** [object(bus::bus& bus, const char* path, bool deferSignal)] *)
Definition object_ctor_defer (Args : list InterfaceModule) (bus : bus_t)
    (path : string) (deferSignal : bool) : Exec object :=
  object_ctor Args bus path
    (if deferSignal then DEFER_EMIT else EMIT_OBJECT_ADDED).

(** [~object()]: the body, then the members, then the base.  The
    destructors of [Args...] do not throw ([module_dtor]), which is what
    makes this destructor [noexcept] too. *)
Definition object_dtor (this : object) : Exec unit :=
  noexcept
    ((if __sdbusplus_server_object_emitremoved this then
        call_discarding
          (sd_bus_emit_object_removed (__sdbusplus_server_object_intf this))
          EvObjectRemoved
          (get (__sdbusplus_server_object_bus this))
          (__sdbusplus_server_object_path this)
      else ret tt) ;;
     destroy_subobjects this).

(** [object(object&&) = default]: the base and every member are moved in
    declaration order.  Moving a [bool], a pointer or an enum copies it.
    What a moved-from [bus::bus] and a moved-from [std::string] hold is up
    to those classes. *)
Section Move.

Variable moved_from_bus : bus_t -> bus_t.
Variable moved_from_string : string -> string.

Definition object_move_ctor (other : object) : Exec (object * object) :=
  fun _ =>
    (Normal
       ({| compose_base := compose_base other;
           __sdbusplus_server_object_bus :=
             __sdbusplus_server_object_bus other;
           __sdbusplus_server_object_path :=
             __sdbusplus_server_object_path other;
           __sdbusplus_server_object_emitremoved :=
             __sdbusplus_server_object_emitremoved other;
           __sdbusplus_server_object_intf :=
             __sdbusplus_server_object_intf other;
           __action := __action other |},
        {| compose_base := compose_base other;
           __sdbusplus_server_object_bus :=
             moved_from_bus (__sdbusplus_server_object_bus other);
           __sdbusplus_server_object_path :=
             moved_from_string (__sdbusplus_server_object_path other);
           __sdbusplus_server_object_emitremoved :=
             __sdbusplus_server_object_emitremoved other;
           __sdbusplus_server_object_intf :=
             __sdbusplus_server_object_intf other;
           __action := __action other |}),
     map (fun T => EvModuleMove (intf_name T)) (compose_base other)).

End Move.

(** ** The owner's side

    The code that holds an object calls [emit_object_added()] on it any
    number of times and catches what a call throws; the object goes on as
    the call has left it. *)

Definition try_emit_object_added (this : object) (h : trace) : object * trace :=
  let '(_, this', d) := body.emit_object_added this h in (this', d).

Fixpoint repeat_emit_object_added (n : nat) (this : object) (h : trace)
  : object * trace :=
  match n with
  | O => (this, [])
  | S n' =>
      let (this1, d1) := try_emit_object_added this h in
      let (this2, d2) := repeat_emit_object_added n' this1 (h ++ d1) in
      (this2, d1 ++ d2)
  end.

(** ** The special member functions of [object]

    Which of copy/move construction and assignment a caller can use is
    settled at compile time, from the declarations in the class body and the
    types of the bases and members.  The table below is the class as
    declared; the [usable] functions apply the language rules:
    - a member declared [= delete] is chosen by overload resolution and
      makes the use ill-formed;
    - a defaulted move member is defined as deleted when a base or member
      cannot be moved (for assignment also when a member is const); defined
      as deleted it is left out of overload resolution, and the
      corresponding copy member is tried in its place;
    - a class that declares none of the four has them all as if
      defaulted. *)

Module special_members.

Inductive declaration :=
| deleted       (* = delete *)
| defaulted.    (* = default, or not declared at all *)

(** What can be done with a class type used as a base or member: whether an
    object of it can be initialised or assigned from a const lvalue
    ([copy_]) and from an rvalue ([move_]) of the same type, by whichever
    of its members overload resolution picks. *)
Record type_traits := {
  copy_constructible : bool;
  copy_assignable : bool;
  move_constructible : bool;
  move_assignable : bool
}.

Inductive member_type :=
| non_class                      (* bool, pointer, enum *)
| class_type (t : type_traits).

Record data_member := {
  member_name : string;
  is_const : bool;
  type_of : member_type
}.

Record class_decl := {
  bases : list type_traits;
  copy_ctor : declaration;
  copy_assign : declaration;
  move_ctor : declaration;
  move_assign : declaration;
  members : list data_member
}.

Definition member_copy_constructs (m : data_member) : bool :=
  match type_of m with
  | non_class => true
  | class_type t => copy_constructible t
  end.

(** A const member of class type is initialised from a const rvalue, which
    only a copy constructor accepts. *)
Definition member_move_constructs (m : data_member) : bool :=
  match type_of m with
  | non_class => true
  | class_type t =>
      if is_const m then copy_constructible t else move_constructible t
  end.

(** A const member cannot be assigned to, whichever operator is used. *)
Definition member_copy_assigns (m : data_member) : bool :=
  negb (is_const m) &&
  match type_of m with
  | non_class => true
  | class_type t => copy_assignable t
  end.

Definition member_move_assigns (m : data_member) : bool :=
  negb (is_const m) &&
  match type_of m with
  | non_class => true
  | class_type t => move_assignable t
  end.

Definition copy_construction_usable (c : class_decl) : bool :=
  match copy_ctor c with
  | deleted => false
  | defaulted =>
      forallb copy_constructible (bases c) &&
      forallb member_copy_constructs (members c)
  end.

Definition copy_assignment_usable (c : class_decl) : bool :=
  match copy_assign c with
  | deleted => false
  | defaulted =>
      forallb copy_assignable (bases c) &&
      forallb member_copy_assigns (members c)
  end.

(** Initialisation from an rvalue: by the move constructor when it is not
    defined as deleted, otherwise by the copy constructor. *)
Definition move_construction_usable (c : class_decl) : bool :=
  match move_ctor c with
  | deleted => false
  | defaulted =>
      (forallb move_constructible (bases c) &&
       forallb member_move_constructs (members c))
      || copy_construction_usable c
  end.

(** Assignment from an rvalue: by the move assignment operator when it is
    not defined as deleted, otherwise by the copy assignment operator. *)
Definition move_assignment_usable (c : class_decl) : bool :=
  match move_assign c with
  | deleted => false
  | defaulted =>
      (forallb move_assignable (bases c) &&
       forallb member_move_assigns (members c))
      || copy_assignment_usable c
  end.

Definition traits_of (c : class_decl) : type_traits :=
  {| copy_constructible := copy_construction_usable c;
     copy_assignable := copy_assignment_usable c;
     move_constructible := move_construction_usable c;
     move_assignable := move_assignment_usable c |}.

(** A class that only derives from [bs] and declares no copy or move member
    and no data member, as every class of [namespace details] is. *)
Definition deriving_from (bs : list type_traits) : class_decl :=
  {| bases := bs;
     copy_ctor := defaulted;
     copy_assign := defaulted;
     move_ctor := defaulted;
     move_assign := defaulted;
     members := [] |}.

(** [compose_impl<T, Rest...> : T, compose_impl<Rest...>], and
    [compose_impl<T> : T]. *)
Fixpoint compose_impl_traits (T : type_traits) (Rest : list type_traits)
  : type_traits :=
  match Rest with
  | [] => traits_of (deriving_from [T])
  | T' :: Rest' =>
      traits_of (deriving_from [T; compose_impl_traits T' Rest'])
  end.

(** [compose<Args...> : compose_impl<Args...>], and [compose<>]. *)
Definition compose_traits (Args : list type_traits) : type_traits :=
  match Args with
  | [] => traits_of (deriving_from [])
  | T :: Rest => traits_of (deriving_from [compose_impl_traits T Rest])
  end.

Definition std_string : type_traits :=
  {| copy_constructible := true;
     copy_assignable := true;
     move_constructible := true;
     move_assignable := true |}.

(** [struct object : details::compose<Args...>], lines 84-88 and 163-167. *)
Definition object_class (Args : list type_traits) (bus_bus : type_traits)
  : class_decl :=
  {| bases := [compose_traits Args];
     copy_ctor := deleted;
     copy_assign := deleted;
     move_ctor := defaulted;
     move_assign := defaulted;
     members :=
       [ {| member_name := "__sdbusplus_server_object_bus";
            is_const := false; type_of := class_type bus_bus |};
         {| member_name := "__sdbusplus_server_object_path";
            is_const := false; type_of := class_type std_string |};
         {| member_name := "__sdbusplus_server_object_emitremoved";
            is_const := false; type_of := non_class |};
         {| member_name := "__sdbusplus_server_object_intf";
            is_const := false; type_of := non_class |};
         {| member_name := "__action";
            is_const := true; type_of := non_class |} ] |}.

(** Classes to try the rules on. *)
Definition Plain : type_traits :=          (* declares none of the four *)
  {| copy_constructible := true; copy_assignable := true;
     move_constructible := true; move_assignable := true |}.
Definition MoveOnly : type_traits :=       (* move members only *)
  {| copy_constructible := false; copy_assignable := false;
     move_constructible := true; move_assignable := true |}.
Definition CopyNoMove : type_traits :=     (* copy members, move = delete *)
  {| copy_constructible := true; copy_assignable := true;
     move_constructible := false; move_assignable := false |}.
Definition Pinned : type_traits :=         (* all four = delete *)
  {| copy_constructible := false; copy_assignable := false;
     move_constructible := false; move_assignable := false |}.

End special_members.

(** ** Concrete collaborators, for running the model *)

Module Samples.

(** A bus layer on which every call returns status [rc]. *)
Definition bus_returning (rc : Z) : SdBusInterface :=
  {| sd_bus_emit_object_added := fun _ _ _ => Returns rc;
     sd_bus_emit_object_removed := fun _ _ _ => Returns rc |}.

(** A bus layer whose object-added call throws. *)
Definition bus_throwing (e : exn) : SdBusInterface :=
  {| sd_bus_emit_object_added := fun _ _ _ => Throws e;
     sd_bus_emit_object_removed := fun _ _ _ => Returns 0%Z |}.

(** A bus layer whose object-added call throws until it has been tried
    once, and returns 0 from then on. *)
Definition bus_recovering (e : exn) : SdBusInterface :=
  {| sd_bus_emit_object_added :=
       fun h _ _ => if existsb is_object_added h then Returns 0%Z else Throws e;
     sd_bus_emit_object_removed := fun _ _ _ => Returns 0%Z |}.

Definition ENOTCONN : Z := 107%Z.

Definition working_module (name : string) : InterfaceModule :=
  {| intf_name := name;
     intf_ctor := fun _ _ _ => None;
     intf_emit_added := fun _ => None |}.

Definition failing_module (name : string) (e : exn) : InterfaceModule :=
  {| intf_name := name;
     intf_ctor := fun _ _ _ => Some e;
     intf_emit_added := fun _ => None |}.

(** A module that registers fine but whose [emit_added()] throws. *)
Definition mute_module (name : string) (e : exn) : InterfaceModule :=
  {| intf_name := name;
     intf_ctor := fun _ _ _ => None;
     intf_emit_added := fun _ => Some e |}.

Definition Power := working_module "Power".
Definition Temperature := working_module "Temperature".
Definition Broken := failing_module "Broken" "add_object_vtable".
Definition Mute := mute_module "Mute" "emit_interfaces_added".

Definition the_bus (intf : SdBusInterface) : bus_t :=
  {| get := 1%Z; getInterface := intf |}.

Definition good_bus : bus_t := the_bus (bus_returning 0%Z).

(** A connection that is gone: every call comes back with [-ENOTCONN]. *)
Definition disconnected : SdBusInterface := bus_returning (- ENOTCONN)%Z.
Definition disconnected_bus : bus_t := the_bus disconnected.

(** What moving out of a [bus::bus] and a [std::string] leaves behind in
    the usual implementations: a null pointer and an empty string. *)
Definition null_bus (b : bus_t) : bus_t :=
  {| get := 0%Z; getInterface := getInterface b |}.
Definition empty_string (s : string) : string := EmptyString.

(** A whole life: construction, [n] calls of [emit_object_added()], and
    destruction when construction completed. *)
Definition lifetime (Args : list InterfaceModule) (bus : bus_t)
    (path : string) (act : action) (n : nat) : trace :=
  match object_ctor Args bus path act [] with
  | (Normal this, d0) =>
      let (this1, d1) := repeat_emit_object_added n this d0 in
      d0 ++ d1 ++ snd (object_dtor this1 (d0 ++ d1))
  | (_, d0) => d0
  end.

End Samples.

(** ** When the collaborators let construction through *)

(** Every constructor of [Args], called in list order from history [h],
    completes. *)
Fixpoint ctors_succeed (bus : bus_t) (path : string) (h : trace)
    (Args : list InterfaceModule) : bool :=
  match Args with
  | [] => true
  | T :: Rest =>
      match intf_ctor T h bus path with
      | None => ctors_succeed bus path (h ++ [ctor_event bus path T]) Rest
      | Some _ => false
      end
  end.

(** Every [emit_added()] of [Args], called in list order from history [h],
    completes. *)
Fixpoint emit_addeds_succeed (h : trace) (Args : list InterfaceModule) : bool :=
  match Args with
  | [] => true
  | T :: Rest =>
      match intf_emit_added T h with
      | None => emit_addeds_succeed (h ++ [added_event T]) Rest
      | Some _ => false
      end
  end.

(** The events up to the start of the constructor body: the constructors of
    [Args] and of the bus member. *)
Definition built (bus : bus_t) (path : string) (Args : list InterfaceModule)
  : trace :=
  map (ctor_event bus path) Args ++ [EvBusCtor (get bus)].

(** The bus pointer and path a whole-object call was made with. *)
Definition bus_call_target (ev : event) : option (sd_bus * string) :=
  match ev with
  | EvObjectAdded b p _ | EvObjectRemoved b p _ => Some (b, p)
  | _ => None
  end.

(** The removal announcements of a destructor run, [d_dtor], set against
    the object's earlier events [d_before]: at most one removal, and one
    exactly when an earlier event satisfies [announced]. *)
Definition removal_tracks (announced : event -> bool)
    (d_before d_dtor : trace) : Prop :=
  count is_object_removed d_dtor <= 1 /\
  (count is_object_removed d_dtor = 1 <-> existsb announced d_before = true).

(** * Proofs *)

(** ** The model at work *)

Example sensors_default_action :
  Samples.lifetime [Samples.Power; Samples.Temperature] Samples.good_bus
    "/sensors/0" EMIT_OBJECT_ADDED 0 =
  [EvModuleCtor "Power" 1%Z "/sensors/0";
   EvModuleCtor "Temperature" 1%Z "/sensors/0";
   EvBusCtor 1%Z;
   EvObjectAdded 1%Z "/sensors/0" (Returns 0%Z);
   EvObjectRemoved 1%Z "/sensors/0" (Returns 0%Z);
   EvBusDtor 1%Z;
   EvModuleDtor "Temperature";
   EvModuleDtor "Power"].
Proof. reflexivity. Qed.

Example sensors_deferred_twice :
  Samples.lifetime [Samples.Power; Samples.Temperature] Samples.good_bus
    "/sensors/0" DEFER_EMIT 2 =
  Samples.lifetime [Samples.Power; Samples.Temperature] Samples.good_bus
    "/sensors/0" EMIT_OBJECT_ADDED 0.
Proof. reflexivity. Qed.

Example sensors_third_module_broken :
  Samples.lifetime
    [Samples.Power; Samples.Temperature; Samples.Broken; Samples.Power]
    Samples.good_bus "/sensors/0" EMIT_OBJECT_ADDED 0 =
  [EvModuleCtor "Power" 1%Z "/sensors/0";
   EvModuleCtor "Temperature" 1%Z "/sensors/0";
   EvModuleCtor "Broken" 1%Z "/sensors/0";
   EvModuleDtor "Temperature";
   EvModuleDtor "Power"].
Proof. reflexivity. Qed.

Example defer_overload :
  object_ctor_defer [Samples.Power] Samples.good_bus "/sensors/0" true [] =
  (Normal (initial_object [Samples.Power] Samples.good_bus "/sensors/0"
             DEFER_EMIT),
   [EvModuleCtor "Power" 1%Z "/sensors/0"; EvBusCtor 1%Z]).
Proof. reflexivity. Qed.

(** The rules of [special_members] on small class lists: a class whose
    move members are deleted is moved by copying once it is a base of a
    [compose_impl], and the order of the list matters. *)
Example compose_traits_matrix :
  let mc Args :=
    special_members.move_constructible (special_members.compose_traits Args) in
  let cc Args :=
    special_members.copy_constructible (special_members.compose_traits Args) in
  let obj Args :=
    special_members.move_construction_usable
      (special_members.object_class Args special_members.MoveOnly) in
  (mc [], cc []) = (true, true) /\
  (mc [special_members.CopyNoMove], cc [special_members.CopyNoMove])
    = (true, true) /\
  (mc [special_members.MoveOnly], cc [special_members.MoveOnly])
    = (true, false) /\
  (mc [special_members.Pinned], cc [special_members.Pinned])
    = (false, false) /\
  mc [special_members.MoveOnly; special_members.CopyNoMove] = true /\
  mc [special_members.CopyNoMove; special_members.MoveOnly] = false /\
  mc [special_members.Plain; special_members.Pinned] = false /\
  obj [] = true /\
  obj [special_members.CopyNoMove] = true /\
  obj [special_members.MoveOnly; special_members.CopyNoMove] = true /\
  obj [special_members.CopyNoMove; special_members.MoveOnly] = false /\
  obj [special_members.Pinned] = false.
Proof. cbv. repeat split. Qed.

(** ** The computation combinators *)

Lemma bind_normal {A B} (c : Exec A) (k : A -> Exec B) h a d1 r d2 :
  c h = (Normal a, d1) ->
  k a (h ++ d1) = (r, d2) ->
  bind c k h = (r, d1 ++ d2).
Proof.
  intros Hc Hk. unfold bind. rewrite Hc, Hk. reflexivity.
Qed.

Lemma bind_threw {A B} (c : Exec A) (k : A -> Exec B) h e d1 :
  c h = (Threw e, d1) ->
  bind c k h = (Threw e, d1).
Proof.
  intros Hc. unfold bind. rewrite Hc. reflexivity.
Qed.

Lemma bind_inv_normal {A B} (c : Exec A) (k : A -> Exec B) h b d :
  bind c k h = (Normal b, d) ->
  exists a d1 d2,
    c h = (Normal a, d1) /\ k a (h ++ d1) = (Normal b, d2) /\ d = d1 ++ d2.
Proof.
  unfold bind. destruct (c h) as [[a | e |] d1]; try discriminate.
  destruct (k a (h ++ d1)) as [r d2] eqn:Hk. intros H.
  injection H as -> <-. exists a, d1, d2. auto.
Qed.

Lemma unwind_with_normal {A} (c : Exec A) cleanup h a d :
  c h = (Normal a, d) ->
  unwind_with c cleanup h = (Normal a, d).
Proof.
  intros Hc. unfold unwind_with. rewrite Hc. reflexivity.
Qed.

Lemma unwind_with_threw {A} (c : Exec A) cleanup h e d1 u d2 :
  c h = (Threw e, d1) ->
  cleanup (h ++ d1) = (Normal u, d2) ->
  unwind_with c cleanup h = (Threw e, d1 ++ d2).
Proof.
  intros Hc Hk. unfold unwind_with. rewrite Hc, Hk. reflexivity.
Qed.

(** ** Traces *)

Lemma count_app p (t1 t2 : trace) :
  count p (t1 ++ t2) = count p t1 + count p t2.
Proof.
  unfold count. rewrite filter_app, length_app. reflexivity.
Qed.

Lemma filter_none (p q : event -> bool) (t : trace) :
  forallb q t = true ->
  (forall ev, q ev = true -> p ev = false) ->
  filter p t = [].
Proof.
  intros Hq Hpq. induction t as [| ev t IH]; simpl in *; auto.
  apply andb_true_iff in Hq as [Hev Ht].
  rewrite (Hpq ev Hev). auto.
Qed.

Lemma filter_all (p : event -> bool) (t : trace) :
  forallb p t = true -> filter p t = t.
Proof.
  intros Hp. induction t as [| ev t IH]; simpl in *; auto.
  apply andb_true_iff in Hp as [Hev Ht].
  rewrite Hev, IH; auto.
Qed.

Lemma count_none p q (t : trace) :
  forallb q t = true ->
  (forall ev, q ev = true -> p ev = false) ->
  count p t = 0.
Proof.
  intros Hq Hpq. unfold count. rewrite (filter_none p q t Hq Hpq). reflexivity.
Qed.

Lemma forallb_map_ctor bus path Args :
  forallb is_module_ctor (map (ctor_event bus path) Args) = true.
Proof. induction Args; simpl; auto. Qed.

Lemma forallb_map_dtor agg :
  forallb is_teardown (map dtor_event agg) = true.
Proof. induction agg; simpl; auto. Qed.

Lemma forallb_map_added Args :
  forallb is_interface_added (map added_event Args) = true.
Proof. induction Args; simpl; auto. Qed.

(** Where an event satisfying [p] sits in [pre ++ suf] when nothing in
    [pre] satisfies [p]. *)
Lemma split_after_prefix (p : event -> bool) (pre suf t1 t2 : trace) ev :
  t1 ++ ev :: t2 = pre ++ suf ->
  (forall x, In x pre -> p x = false) ->
  p ev = true ->
  exists s1, t1 = pre ++ s1 /\ suf = s1 ++ ev :: t2.
Proof.
  revert t1. induction pre as [| x pre IH]; intros t1 Heq Hpre Hev.
  - exists t1. simpl in *. auto.
  - destruct t1 as [| y t1]; simpl in Heq; injection Heq as Hxy Heq.
    + subst x. rewrite (Hpre ev (or_introl eq_refl)) in Hev. discriminate.
    + subst y. destruct (IH t1 Heq) as [s1 [H1 H2]]; auto.
      * intros z Hz. apply Hpre. right. exact Hz.
      * exists s1. subst t1. auto.
Qed.

(** ** The composed aggregate *)

Lemma destroy_trace agg h :
  details.destroy agg h = (Normal tt, map dtor_event (rev agg)).
Proof.
  revert h. induction agg as [| T Rest IH]; intros h; simpl.
  - reflexivity.
  - rewrite (bind_normal _ _ h tt (map dtor_event (rev Rest)) (Normal tt)
               [dtor_event T]).
    + rewrite map_app. reflexivity.
    + apply IH.
    + reflexivity.
Qed.

(** The first constructor that throws, when one does. *)
Lemma ctors_fail_split bus path Args : forall h,
  ctors_succeed bus path h Args = false ->
  exists pre T post e,
    Args = pre ++ T :: post /\
    ctors_succeed bus path h pre = true /\
    intf_ctor T (h ++ map (ctor_event bus path) pre) bus path = Some e.
Proof.
  induction Args as [| T Rest IH]; intros h Hf; simpl in Hf.
  - discriminate.
  - destruct (intf_ctor T h bus path) as [e |] eqn:HT.
    + exists [], T, Rest, e. simpl. rewrite app_nil_r. auto.
    + destruct (IH _ Hf) as (pre & X & post & e & -> & Hpre & HX).
      exists (T :: pre), X, post, e. simpl. rewrite HT.
      rewrite <- app_assoc in HX. auto.
Qed.

Lemma module_ctor_ok T bus path h :
  intf_ctor T h bus path = None ->
  module_ctor T bus path h = (Normal T, [ctor_event bus path T]).
Proof. intros H. unfold module_ctor. rewrite H. reflexivity. Qed.

Lemma module_ctor_throws T bus path h e :
  intf_ctor T h bus path = Some e ->
  module_ctor T bus path h = (Threw e, [ctor_event bus path T]).
Proof. intros H. unfold module_ctor. rewrite H. reflexivity. Qed.

Lemma ctors_succeed_cons bus path h T Rest :
  ctors_succeed bus path h (T :: Rest) = true ->
  intf_ctor T h bus path = None /\
  ctors_succeed bus path (h ++ [ctor_event bus path T]) Rest = true.
Proof.
  cbn [ctors_succeed]. destruct (intf_ctor T h bus path); [discriminate | auto].
Qed.

Lemma compose_impl_ok bus path Rest : forall T h,
  ctors_succeed bus path h (T :: Rest) = true ->
  details.compose_impl T Rest bus path h =
    (Normal (T :: Rest), map (ctor_event bus path) (T :: Rest)).
Proof.
  induction Rest as [| T' Rest' IH]; intros T h Hok;
    apply ctors_succeed_cons in Hok as [HT Hok];
    cbn [details.compose_impl].
  - rewrite (bind_normal _ _ h T [ctor_event bus path T] (Normal [T]) []);
      [reflexivity | apply module_ctor_ok; exact HT | reflexivity].
  - rewrite (bind_normal _ _ h T [ctor_event bus path T]
               (Normal (T :: T' :: Rest'))
               (map (ctor_event bus path) (T' :: Rest')));
      [reflexivity | apply module_ctor_ok; exact HT |].
    apply unwind_with_normal.
    rewrite (bind_normal _ _ _ (T' :: Rest')
               (map (ctor_event bus path) (T' :: Rest'))
               (Normal (T :: T' :: Rest')) []);
      [rewrite app_nil_r; reflexivity | apply IH; exact Hok | reflexivity].
Qed.

Lemma compose_ok bus path Args h :
  ctors_succeed bus path h Args = true ->
  details.compose Args bus path h =
    (Normal Args, map (ctor_event bus path) Args).
Proof.
  destruct Args as [| T Rest]; intros Hok.
  - reflexivity.
  - apply compose_impl_ok. exact Hok.
Qed.

Lemma compose_impl_fail bus path e X post : forall pre T Rest h,
  T :: Rest = pre ++ X :: post ->
  ctors_succeed bus path h pre = true ->
  intf_ctor X (h ++ map (ctor_event bus path) pre) bus path = Some e ->
  details.compose_impl T Rest bus path h =
    (Threw e,
     map (ctor_event bus path) pre ++ ctor_event bus path X ::
     map dtor_event (rev pre)).
Proof.
  induction pre as [| P pre IH]; intros T Rest h Heq Hpre HX.
  - simpl in *. rewrite app_nil_r in HX. injection Heq as -> ->.
    destruct post as [| T' Rest']; cbn [details.compose_impl];
      apply bind_threw; apply module_ctor_throws; exact HX.
  - simpl in Heq. injection Heq as -> ->.
    apply ctors_succeed_cons in Hpre as [HP Hpre].
    assert (HX' : intf_ctor X
              ((h ++ [ctor_event bus path P]) ++ map (ctor_event bus path) pre)
              bus path = Some e).
    { rewrite <- app_assoc. exact HX. }
    destruct (pre ++ X :: post) as [| T' Rest'] eqn:Hrest.
    { destruct pre; discriminate. }
    cbn [details.compose_impl].
    rewrite (bind_normal _ _ h P [ctor_event bus path P] (Threw e)
               ((map (ctor_event bus path) pre ++ ctor_event bus path X ::
                 map dtor_event (rev pre)) ++ [dtor_event P])).
    + simpl. rewrite map_app. simpl. rewrite <- !app_assoc. reflexivity.
    + apply module_ctor_ok. exact HP.
    + apply (unwind_with_threw _ _ _ e _ tt).
      * apply bind_threw. apply IH; auto.
      * reflexivity.
Qed.

Lemma compose_fail bus path pre X post h e :
  ctors_succeed bus path h pre = true ->
  intf_ctor X (h ++ map (ctor_event bus path) pre) bus path = Some e ->
  details.compose (pre ++ X :: post) bus path h =
    (Threw e,
     map (ctor_event bus path) pre ++ ctor_event bus path X ::
     map dtor_event (rev pre)).
Proof.
  intros Hpre HX. unfold details.compose.
  destruct (pre ++ X :: post) as [| T Rest] eqn:Heq.
  { destruct pre; discriminate. }
  eapply compose_impl_fail; eauto.
Qed.

(** An aggregate that came into being is the whole list, built in order. *)
Lemma compose_inv_normal bus path Args h agg d :
  details.compose Args bus path h = (Normal agg, d) ->
  ctors_succeed bus path h Args = true /\
  agg = Args /\ d = map (ctor_event bus path) Args.
Proof.
  intros Hc. destruct (ctors_succeed bus path h Args) eqn:Hok.
  - rewrite (compose_ok _ _ _ _ Hok) in Hc. injection Hc as <- <-. auto.
  - destruct (ctors_fail_split _ _ _ _ Hok) as (pre & X & post & e & -> & Hpre & HX).
    rewrite (compose_fail _ _ _ _ _ _ _ Hpre HX) in Hc. discriminate.
Qed.

(** ** The member functions of [object] *)

Lemma emit_added_fold_inv_normal Args : forall h u d,
  emit_added_fold Args h = (Normal u, d) ->
  d = map added_event Args.
Proof.
  induction Args as [| T Rest IH]; intros h u d H; simpl in H.
  - injection H as _ <-. reflexivity.
  - apply bind_inv_normal in H as (a & d1 & d2 & H1 & H2 & ->).
    unfold emit_added in H1.
    destruct (intf_emit_added T h); [discriminate |].
    injection H1 as _ <-. simpl. f_equal. eapply IH. exact H2.
Qed.

Lemma emit_added_fold_only_added Args : forall h,
  forallb is_interface_added (snd (emit_added_fold Args h)) = true.
Proof.
  induction Args as [| T Rest IH]; intros h; simpl.
  - reflexivity.
  - unfold bind, emit_added.
    destruct (intf_emit_added T h); simpl; [reflexivity |].
    specialize (IH (h ++ [added_event T])).
    destruct (emit_added_fold Rest (h ++ [added_event T])) as [r d2].
    simpl in *. exact IH.
Qed.

(** The body of [emit_object_added()], run on [this]: nothing when the flag
    is set; otherwise the call, and the flag written only when it came
    back. *)
Lemma body_emit_object_added_eq this h :
  body.emit_object_added this h =
  if __sdbusplus_server_object_emitremoved this then (Normal tt, this, [])
  else
    let b := get (__sdbusplus_server_object_bus this) in
    let p := __sdbusplus_server_object_path this in
    match sd_bus_emit_object_added (__sdbusplus_server_object_intf this) h b p with
    | Returns rc =>
        (Normal tt, set_emitremoved this true, [EvObjectAdded b p (Returns rc)])
    | Throws e => (Threw e, this, [EvObjectAdded b p (Throws e)])
    end.
Proof.
  unfold body.emit_object_added.
  destruct (__sdbusplus_server_object_emitremoved this); simpl.
  - reflexivity.
  - unfold mbind, external, call_discarding, assign_emitremoved.
    destruct (sd_bus_emit_object_added _ h _ _); reflexivity.
Qed.

Lemma emit_object_added_eq this h :
  emit_object_added this h =
  if __sdbusplus_server_object_emitremoved this then (Normal this, [])
  else
    let b := get (__sdbusplus_server_object_bus this) in
    let p := __sdbusplus_server_object_path this in
    match sd_bus_emit_object_added (__sdbusplus_server_object_intf this) h b p with
    | Returns rc =>
        (Normal (set_emitremoved this true), [EvObjectAdded b p (Returns rc)])
    | Throws e => (Threw e, [EvObjectAdded b p (Throws e)])
    end.
Proof.
  unfold emit_object_added, returning. rewrite body_emit_object_added_eq.
  destruct (__sdbusplus_server_object_emitremoved this); [reflexivity |].
  cbv zeta. destruct (sd_bus_emit_object_added _ h _ _); reflexivity.
Qed.

(** A call that throws has left the object as it found it. *)
Lemma try_emit_object_added_eq this h :
  try_emit_object_added this h =
  match emit_object_added this h with
  | (Normal this', d) => (this', d)
  | (_, d) => (this, d)
  end.
Proof.
  unfold try_emit_object_added. rewrite emit_object_added_eq.
  rewrite body_emit_object_added_eq.
  destruct (__sdbusplus_server_object_emitremoved this); [reflexivity |].
  cbv zeta. destruct (sd_bus_emit_object_added _ h _ _); reflexivity.
Qed.

Lemma check_action_eq this h :
  check_action this h =
  match __action this with
  | EMIT_OBJECT_ADDED => emit_object_added this
  | EMIT_INTERFACE_ADDED => emit_added_fold (compose_base this) ;; ret this
  | DEFER_EMIT => ret this
  end h.
Proof.
  unfold check_action, returning, body.check_action.
  destruct (__action this).
  - reflexivity.
  - unfold external, bind.
    destruct (emit_added_fold (compose_base this) h) as [[u | e |] d];
      simpl; try rewrite app_nil_r; reflexivity.
  - reflexivity.
Qed.

Lemma destroy_subobjects_eq this h :
  destroy_subobjects this h =
  (Normal tt,
   EvBusDtor (get (__sdbusplus_server_object_bus this)) ::
   map dtor_event (rev (compose_base this))).
Proof.
  unfold destroy_subobjects, bind, log. rewrite destroy_trace. reflexivity.
Qed.

Lemma object_dtor_eq this h :
  object_dtor this h =
  let b := get (__sdbusplus_server_object_bus this) in
  let p := __sdbusplus_server_object_path this in
  let teardown := EvBusDtor b :: map dtor_event (rev (compose_base this)) in
  if __sdbusplus_server_object_emitremoved this then
    match sd_bus_emit_object_removed (__sdbusplus_server_object_intf this) h b p with
    | Returns rc => (Normal tt, EvObjectRemoved b p (Returns rc) :: teardown)
    | Throws e => (Terminated, [EvObjectRemoved b p (Throws e)])
    end
  else (Normal tt, teardown).
Proof.
  unfold object_dtor, noexcept, bind.
  destruct (__sdbusplus_server_object_emitremoved this); simpl.
  - unfold call_discarding.
    destruct (sd_bus_emit_object_removed _ h _ _); simpl.
    + rewrite destroy_subobjects_eq. reflexivity.
    + reflexivity.
  - rewrite destroy_subobjects_eq. reflexivity.
Qed.

(** The destructor announces removal exactly when the flag is set. *)
Lemma object_dtor_removed_count this h :
  count is_object_removed (snd (object_dtor this h)) =
  if __sdbusplus_server_object_emitremoved this then 1 else 0.
Proof.
  assert (Htd : forall b agg,
             count is_object_removed (EvBusDtor b :: map dtor_event agg) = 0).
  { intros b agg. apply (count_none _ is_teardown).
    - simpl. apply forallb_map_dtor.
    - intros [] Hev; simpl in *; congruence. }
  rewrite object_dtor_eq. cbv zeta.
  destruct (__sdbusplus_server_object_emitremoved this).
  - destruct (sd_bus_emit_object_removed _ h _ _); simpl snd.
    + change (EvObjectRemoved ?b ?p ?r :: ?t) with ([EvObjectRemoved b p r] ++ t).
      rewrite count_app, Htd. reflexivity.
    + reflexivity.
  - apply Htd.
Qed.

(** The constructor, once the aggregate is known to come into being. *)
Lemma object_ctor_eq Args bus path act h :
  ctors_succeed bus path h Args = true ->
  let built := map (ctor_event bus path) Args ++ [EvBusCtor (get bus)] in
  let this := initial_object Args bus path act in
  object_ctor Args bus path act h =
  match check_action this (h ++ built) with
  | (Normal this', d) => (Normal this', built ++ d)
  | (Threw e, d) =>
      (Threw e,
       built ++ d ++ EvBusDtor (get bus) :: map dtor_event (rev Args))
  | (Terminated, d) => (Terminated, built ++ d)
  end.
Proof.
  intros Hok built this. unfold object_ctor.
  unfold bind at 1. rewrite (compose_ok _ _ _ _ Hok).
  unfold bind at 1. unfold log at 1. fold this.
  unfold unwind_with.
  replace ((h ++ map (ctor_event bus path) Args) ++ [EvBusCtor (get bus)])
    with (h ++ built) by (unfold built; rewrite app_assoc; reflexivity).
  destruct (check_action this (h ++ built)) as [[this' | e |] d].
  - unfold built. rewrite <- app_assoc. reflexivity.
  - rewrite destroy_subobjects_eq. unfold built. simpl.
    rewrite <- !app_assoc. reflexivity.
  - unfold built. rewrite <- app_assoc. reflexivity.
Qed.

(** When a constructor of [Args] throws, nothing beyond the aggregate's own
    roll-back happens. *)
Lemma object_ctor_compose_fails Args bus path act h e d :
  details.compose Args bus path h = (Threw e, d) ->
  object_ctor Args bus path act h = (Threw e, d).
Proof.
  intros H. unfold object_ctor. apply bind_threw. exact H.
Qed.

(** What has happened by the time the constructor body starts. *)
Lemma object_ctor_inv_normal Args bus path act h this d :
  object_ctor Args bus path act h = (Normal this, d) ->
  ctors_succeed bus path h Args = true /\
  exists d',
    check_action (initial_object Args bus path act)
      (h ++ map (ctor_event bus path) Args ++ [EvBusCtor (get bus)])
    = (Normal this, d') /\
    d = (map (ctor_event bus path) Args ++ [EvBusCtor (get bus)]) ++ d'.
Proof.
  intros H.
  assert (Hok : ctors_succeed bus path h Args = true).
  { unfold object_ctor in H.
    apply bind_inv_normal in H as (base & d1 & d2 & Hc & _ & _).
    apply compose_inv_normal in Hc. tauto. }
  split; [exact Hok |].
  rewrite (object_ctor_eq _ _ _ act _ Hok) in H. cbv zeta in H.
  destruct (check_action _ _) as [[this' | e |] d'] eqn:Hca; try discriminate.
  injection H as -> <-. exists d'. auto.
Qed.

Lemma count_built p Args bus path :
  (forall i b pa, p (EvModuleCtor i b pa) = false) ->
  (forall b, p (EvBusCtor b) = false) ->
  count p (map (ctor_event bus path) Args ++ [EvBusCtor (get bus)]) = 0.
Proof.
  intros Hc Hb. rewrite count_app. unfold count at 2. simpl. rewrite Hb.
  rewrite (count_none p is_module_ctor).
  - reflexivity.
  - apply forallb_map_ctor.
  - intros [] Hev; simpl in Hev; try discriminate. apply Hc.
Qed.

Lemma emit_added_fold_ok Args : forall h,
  emit_addeds_succeed h Args = true ->
  emit_added_fold Args h = (Normal tt, map added_event Args).
Proof.
  induction Args as [| T Rest IH]; intros h Hok; simpl in *.
  - reflexivity.
  - destruct (intf_emit_added T h) eqn:HT; [discriminate |].
    rewrite (bind_normal _ _ h tt [added_event T] (Normal tt)
               (map added_event Rest)).
    + reflexivity.
    + unfold emit_added. rewrite HT. reflexivity.
    + apply IH. exact Hok.
Qed.

(** Construction completes whenever the collaborators it calls do. *)
Lemma object_ctor_completes Args bus path act h :
  let built := map (ctor_event bus path) Args ++ [EvBusCtor (get bus)] in
  ctors_succeed bus path h Args = true ->
  match act with
  | EMIT_OBJECT_ADDED =>
      returned (sd_bus_emit_object_added (getInterface bus) (h ++ built)
                  (get bus) path) = true
  | EMIT_INTERFACE_ADDED => emit_addeds_succeed (h ++ built) Args = true
  | DEFER_EMIT => True
  end ->
  exists this d, object_ctor Args bus path act h = (Normal this, d).
Proof.
  intros built Hok Hact. rewrite (object_ctor_eq _ _ _ act _ Hok). cbv zeta.
  fold built. rewrite check_action_eq. cbn [__action initial_object].
  destruct act.
  - rewrite emit_object_added_eq. cbn.
    destruct (sd_bus_emit_object_added _ _ _ _); [| discriminate].
    eexists _, _. reflexivity.
  - cbn [compose_base].
    rewrite (bind_normal _ _ (h ++ built) tt (map added_event Args)
               (Normal (initial_object Args bus path EMIT_INTERFACE_ADDED)) []);
      [| apply emit_added_fold_ok; exact Hact | reflexivity].
    eexists _, _. reflexivity.
  - eexists _, _. reflexivity.
Qed.

(** A list of classes that can each be initialised from an rvalue composes
    into one that can. *)
Lemma compose_impl_traits_move_constructible Rest : forall T,
  forallb special_members.move_constructible (T :: Rest) = true ->
  special_members.move_constructible
    (special_members.compose_impl_traits T Rest) = true.
Proof.
  induction Rest as [| T' Rest' IH]; intros T H;
    simpl in H; apply andb_true_iff in H as [HT HRest];
    cbn [special_members.compose_impl_traits special_members.traits_of
         special_members.move_constructible];
    unfold special_members.move_construction_usable; cbn.
  - rewrite HT. reflexivity.
  - rewrite HT, (IH T' HRest). reflexivity.
Qed.

(** * The claims *)

(** C7. For every list of interface classes [Args = M1..Mn] whose
    constructors complete, [compose<Args...>(bus, path)] runs the
    constructors of M1, M2, ..., Mn in exactly that order, each with the
    same [(bus, path)], and nothing else; and [compose<>(bus, path)] does
    nothing at all. *)
Theorem compose_constructs_in_list_order Args bus path h :
  ctors_succeed bus path h Args = true ->
  details.compose Args bus path h =
    (Normal Args,
     map (fun T => EvModuleCtor (intf_name T) (get bus) path) Args) /\
  details.compose [] bus path h = (Normal [], []).
Proof.
  intros Hok. split.
  - apply compose_ok. exact Hok.
  - reflexivity.
Qed.

Lemma compose_constructs_in_list_order_witness :
  ctors_succeed Samples.good_bus "/sensors/0" []
    [Samples.Power; Samples.Temperature] = true /\
  details.compose [Samples.Power; Samples.Temperature]
    Samples.good_bus "/sensors/0" [] =
    (Normal [Samples.Power; Samples.Temperature],
     [EvModuleCtor "Power" 1%Z "/sensors/0";
      EvModuleCtor "Temperature" 1%Z "/sensors/0"]).
Proof.
  split.
  - reflexivity.
  - apply (compose_constructs_in_list_order
             [Samples.Power; Samples.Temperature]
             Samples.good_bus "/sensors/0" []).
    reflexivity.
Defined.

(** C5. If the constructor of the module at position k of the list throws
    (the k-1 before it having completed), construction of the object throws
    the same exception to its creator, the trace consists of the k
    constructor calls followed by the destructors of modules k-1, ..., 1 in
    that (reverse) order, and no notification of any kind is emitted. *)
Theorem module_ctor_failure_rolls_back pre T post bus path act h e :
  ctors_succeed bus path h pre = true ->
  intf_ctor T (h ++ map (ctor_event bus path) pre) bus path = Some e ->
  object_ctor (pre ++ T :: post) bus path act h =
    (Threw e,
     map (ctor_event bus path) pre ++ ctor_event bus path T ::
     map dtor_event (rev pre)) /\
  count is_notification
    (snd (object_ctor (pre ++ T :: post) bus path act h)) = 0.
Proof.
  intros Hpre HT.
  assert (H : object_ctor (pre ++ T :: post) bus path act h =
              (Threw e,
               map (ctor_event bus path) pre ++ ctor_event bus path T ::
               map dtor_event (rev pre))).
  { apply object_ctor_compose_fails. apply compose_fail; assumption. }
  split; [exact H |].
  rewrite H. simpl snd.
  change (ctor_event bus path T :: map dtor_event (rev pre))
    with ([ctor_event bus path T] ++ map dtor_event (rev pre)).
  rewrite !count_app.
  rewrite (count_none is_notification is_module_ctor);
    [| apply forallb_map_ctor | intros [] Hev; try discriminate Hev; reflexivity].
  rewrite (count_none is_notification is_teardown (map dtor_event (rev pre)));
    [| apply forallb_map_dtor | intros [] Hev; try discriminate Hev; reflexivity].
  reflexivity.
Qed.

Lemma module_ctor_failure_rolls_back_witness :
  ctors_succeed Samples.good_bus "/sensors/0" []
    [Samples.Power; Samples.Temperature] = true /\
  intf_ctor Samples.Broken
    ([] ++ map (ctor_event Samples.good_bus "/sensors/0")
             [Samples.Power; Samples.Temperature])
    Samples.good_bus "/sensors/0" = Some "add_object_vtable" /\
  object_ctor
    ([Samples.Power; Samples.Temperature] ++ Samples.Broken :: [Samples.Power])
    Samples.good_bus "/sensors/0" EMIT_OBJECT_ADDED [] =
    (Threw "add_object_vtable",
     [EvModuleCtor "Power" 1%Z "/sensors/0";
      EvModuleCtor "Temperature" 1%Z "/sensors/0";
      EvModuleCtor "Broken" 1%Z "/sensors/0";
      EvModuleDtor "Temperature";
      EvModuleDtor "Power"]).
Proof.
  split; [reflexivity |]. split; [reflexivity |].
  apply (module_ctor_failure_rolls_back
           [Samples.Power; Samples.Temperature] Samples.Broken [Samples.Power]
           Samples.good_bus "/sensors/0" EMIT_OBJECT_ADDED []
           "add_object_vtable"); reflexivity.
Defined.

(** C2. For every list [Args], when construction with [EMIT_OBJECT_ADDED]
    completes, its trace is the N constructors, the bus member, and one
    object-added call: exactly one object-added notification and no
    interface-added notification; destroying that object then emits exactly
    one object-removed notification. *)
Theorem emit_object_added_action Args bus path h this d :
  object_ctor Args bus path EMIT_OBJECT_ADDED h = (Normal this, d) ->
  (exists rc,
     d = map (ctor_event bus path) Args ++
         [EvBusCtor (get bus); EvObjectAdded (get bus) path (Returns rc)]) /\
  count is_object_added d = 1 /\
  count is_interface_added d = 0 /\
  forall h', count is_object_removed (snd (object_dtor this h')) = 1.
Proof.
  intros H. apply object_ctor_inv_normal in H as (Hok & d' & Hca & ->).
  rewrite check_action_eq in Hca. cbn [__action initial_object] in Hca.
  rewrite emit_object_added_eq in Hca. cbn in Hca.
  destruct (sd_bus_emit_object_added _ _ _ _) as [rc | e]; try discriminate.
  injection Hca as <- <-.
  split; [| split; [| split]].
  - exists rc. rewrite <- app_assoc. reflexivity.
  - rewrite count_app, count_built by reflexivity. reflexivity.
  - rewrite count_app, count_built by reflexivity. reflexivity.
  - intros h'. rewrite object_dtor_removed_count. reflexivity.
Qed.

Lemma emit_object_added_action_witness :
  object_ctor [Samples.Power; Samples.Temperature] Samples.good_bus
    "/sensors/0" EMIT_OBJECT_ADDED [] =
    (Normal
       (set_emitremoved
          (initial_object [Samples.Power; Samples.Temperature]
             Samples.good_bus "/sensors/0" EMIT_OBJECT_ADDED) true),
     [EvModuleCtor "Power" 1%Z "/sensors/0";
      EvModuleCtor "Temperature" 1%Z "/sensors/0";
      EvBusCtor 1%Z;
      EvObjectAdded 1%Z "/sensors/0" (Returns 0%Z)]) /\
  forall h',
    count is_object_removed
      (snd (object_dtor
              (set_emitremoved
                 (initial_object [Samples.Power; Samples.Temperature]
                    Samples.good_bus "/sensors/0" EMIT_OBJECT_ADDED) true)
              h')) = 1.
Proof.
  split.
  - reflexivity.
  - apply (emit_object_added_action
             [Samples.Power; Samples.Temperature] Samples.good_bus
             "/sensors/0" []
             (set_emitremoved
                (initial_object [Samples.Power; Samples.Temperature]
                   Samples.good_bus "/sensors/0" EMIT_OBJECT_ADDED) true)
             [EvModuleCtor "Power" 1%Z "/sensors/0";
              EvModuleCtor "Temperature" 1%Z "/sensors/0";
              EvBusCtor 1%Z;
              EvObjectAdded 1%Z "/sensors/0" (Returns 0%Z)]).
    reflexivity.
Defined.

(** C3. For every list [Args], when construction with
    [EMIT_INTERFACE_ADDED] completes, the notifications it emitted are
    exactly the N interface-added ones, one per module in list order, and no
    object-added one; the flag stays false, so destroying that object emits
    no object-removed notification. *)
Theorem emit_interface_added_action Args bus path h this d :
  object_ctor Args bus path EMIT_INTERFACE_ADDED h = (Normal this, d) ->
  filter is_notification d =
    map (fun T => EvInterfaceAdded (intf_name T)) Args /\
  count is_interface_added d = List.length Args /\
  count is_object_added d = 0 /\
  __sdbusplus_server_object_emitremoved this = false /\
  forall h', count is_object_removed (snd (object_dtor this h')) = 0.
Proof.
  intros H. apply object_ctor_inv_normal in H as (Hok & d' & Hca & ->).
  rewrite check_action_eq in Hca. cbn [__action initial_object] in Hca.
  apply bind_inv_normal in Hca as (u & d1 & d2 & Hfold & Hret & ->).
  injection Hret as <- <-. rewrite app_nil_r.
  apply emit_added_fold_inv_normal in Hfold. cbn [compose_base] in Hfold.
  subst d1.
  assert (Hb : forall p,
             (forall i b pa, p (EvModuleCtor i b pa) = false) ->
             (forall b, p (EvBusCtor b) = false) ->
             filter p (map (ctor_event bus path) Args ++ [EvBusCtor (get bus)])
             = []).
  { intros p Hc Hbus. apply length_zero_iff_nil.
    apply (count_built p Args bus path Hc Hbus). }
  split; [| split; [| split; [| split]]].
  - rewrite filter_app, Hb by reflexivity. simpl.
    apply filter_all. clear. induction Args; simpl; auto.
  - unfold count. rewrite filter_app, Hb by reflexivity. simpl.
    rewrite filter_all by apply forallb_map_added. apply length_map.
  - unfold count. rewrite filter_app, Hb by reflexivity. simpl.
    rewrite (filter_none is_object_added is_interface_added);
      [reflexivity | apply forallb_map_added |].
    intros [] Hev; try discriminate Hev; reflexivity.
  - reflexivity.
  - intros h'. rewrite object_dtor_removed_count. reflexivity.
Qed.

Lemma emit_interface_added_action_witness :
  object_ctor [Samples.Power; Samples.Temperature] Samples.good_bus
    "/sensors/0" EMIT_INTERFACE_ADDED [] =
    (Normal
       (initial_object [Samples.Power; Samples.Temperature]
          Samples.good_bus "/sensors/0" EMIT_INTERFACE_ADDED),
     [EvModuleCtor "Power" 1%Z "/sensors/0";
      EvModuleCtor "Temperature" 1%Z "/sensors/0";
      EvBusCtor 1%Z;
      EvInterfaceAdded "Power";
      EvInterfaceAdded "Temperature"]) /\
  forall h',
    count is_object_removed
      (snd (object_dtor
              (initial_object [Samples.Power; Samples.Temperature]
                 Samples.good_bus "/sensors/0" EMIT_INTERFACE_ADDED)
              h')) = 0.
Proof.
  split.
  - reflexivity.
  - apply (emit_interface_added_action
             [Samples.Power; Samples.Temperature] Samples.good_bus
             "/sensors/0" []
             (initial_object [Samples.Power; Samples.Temperature]
                Samples.good_bus "/sensors/0" EMIT_INTERFACE_ADDED)
             [EvModuleCtor "Power" 1%Z "/sensors/0";
              EvModuleCtor "Temperature" 1%Z "/sensors/0";
              EvBusCtor 1%Z;
              EvInterfaceAdded "Power";
              EvInterfaceAdded "Temperature"]).
    reflexivity.
Defined.

(** ** Repeated calls by the owner *)

Lemma try_emit_object_added_flag this h this1 d1 :
  try_emit_object_added this h = (this1, d1) ->
  __sdbusplus_server_object_emitremoved this1 =
    __sdbusplus_server_object_emitremoved this || existsb added_returned d1 /\
  count is_object_removed d1 = 0.
Proof.
  rewrite try_emit_object_added_eq. rewrite emit_object_added_eq. cbv zeta.
  destruct (__sdbusplus_server_object_emitremoved this) eqn:Hflag.
  - intros H. injection H as <- <-. rewrite Hflag. auto.
  - destruct (sd_bus_emit_object_added _ _ _ _) as [rc | e];
      intros H; injection H as <- <-; simpl; auto.
Qed.

Lemma repeat_emit_object_added_flag n : forall this h this1 d1,
  repeat_emit_object_added n this h = (this1, d1) ->
  __sdbusplus_server_object_emitremoved this1 =
    __sdbusplus_server_object_emitremoved this || existsb added_returned d1 /\
  count is_object_removed d1 = 0.
Proof.
  induction n as [| n IH]; intros this h this1 d1 H; simpl in H.
  - injection H as <- <-. rewrite orb_false_r. auto.
  - destruct (try_emit_object_added this h) as [thisA dA] eqn:HA.
    destruct (repeat_emit_object_added n thisA (h ++ dA)) as [thisB dB] eqn:HB.
    injection H as <- <-.
    apply try_emit_object_added_flag in HA as [HA1 HA2].
    apply IH in HB as [HB1 HB2].
    rewrite HB1, HA1, existsb_app, count_app, HA2, HB2, orb_assoc. auto.
Qed.

(** Once the flag is set, further calls do nothing. *)
Lemma repeat_emit_object_added_noop n : forall this h,
  __sdbusplus_server_object_emitremoved this = true ->
  repeat_emit_object_added n this h = (this, []).
Proof.
  induction n as [| n IH]; intros this h Hflag; simpl.
  - reflexivity.
  - rewrite try_emit_object_added_eq. rewrite emit_object_added_eq, Hflag.
    rewrite IH by exact Hflag. reflexivity.
Qed.

(** After construction the flag says whether an object-added call came
    back, and no removal has been announced. *)
Lemma object_ctor_flag Args bus path act h this d :
  object_ctor Args bus path act h = (Normal this, d) ->
  __sdbusplus_server_object_emitremoved this = existsb added_returned d /\
  count is_object_removed d = 0.
Proof.
  intros H. apply object_ctor_inv_normal in H as (Hok & d' & Hca & ->).
  rewrite existsb_app, count_app, count_built by reflexivity.
  assert (Hb : existsb added_returned
                 (map (ctor_event bus path) Args ++ [EvBusCtor (get bus)])
               = false).
  { rewrite existsb_app. simpl. rewrite orb_false_r.
    clear. induction Args; simpl; auto. }
  rewrite Hb. simpl.
  rewrite check_action_eq in Hca. cbn [__action initial_object] in Hca.
  destruct act.
  - rewrite emit_object_added_eq in Hca. cbn in Hca.
    destruct (sd_bus_emit_object_added _ _ _ _) as [rc | e]; try discriminate.
    injection Hca as <- <-. auto.
  - apply bind_inv_normal in Hca as (u & d1 & d2 & Hfold & Hret & ->).
    injection Hret as <- <-. rewrite app_nil_r.
    apply emit_added_fold_inv_normal in Hfold. subst d1. cbn.
    split.
    + clear. induction Args; simpl; auto.
    + apply (count_none _ is_interface_added).
      * apply forallb_map_added.
      * intros [] Hev; try discriminate Hev; reflexivity.
  - injection Hca as <- <-. auto.
Qed.

(** C4. When construction with [DEFER_EMIT] completes it has emitted no
    notification; the first [emit_object_added()] that comes back then
    emits exactly one object-added notification; and however many calls
    follow, they emit nothing and leave the object as it is. *)
Theorem defer_emit_then_emit_once Args bus path h this d h1 this1 d1 :
  object_ctor Args bus path DEFER_EMIT h = (Normal this, d) ->
  emit_object_added this h1 = (Normal this1, d1) ->
  count is_notification d = 0 /\
  (exists rc, d1 = [EvObjectAdded (get bus) path (Returns rc)]) /\
  count is_notification d1 = 1 /\
  forall n h2, repeat_emit_object_added n this1 h2 = (this1, []).
Proof.
  intros H H1. apply object_ctor_inv_normal in H as (Hok & d' & Hca & ->).
  rewrite check_action_eq in Hca. cbn [__action initial_object] in Hca.
  injection Hca as <- <-.
  rewrite emit_object_added_eq in H1. cbn in H1.
  destruct (sd_bus_emit_object_added _ _ _ _) as [rc | e]; try discriminate.
  injection H1 as <- <-.
  split; [| split; [| split]].
  - rewrite app_nil_r. apply count_built; reflexivity.
  - exists rc. reflexivity.
  - reflexivity.
  - intros n h2. apply repeat_emit_object_added_noop. reflexivity.
Qed.

Lemma defer_emit_then_emit_once_witness :
  object_ctor [Samples.Power; Samples.Temperature] Samples.good_bus
    "/sensors/0" DEFER_EMIT [] =
    (Normal
       (initial_object [Samples.Power; Samples.Temperature]
          Samples.good_bus "/sensors/0" DEFER_EMIT),
     [EvModuleCtor "Power" 1%Z "/sensors/0";
      EvModuleCtor "Temperature" 1%Z "/sensors/0";
      EvBusCtor 1%Z]) /\
  emit_object_added
    (initial_object [Samples.Power; Samples.Temperature]
       Samples.good_bus "/sensors/0" DEFER_EMIT) [] =
    (Normal
       (set_emitremoved
          (initial_object [Samples.Power; Samples.Temperature]
             Samples.good_bus "/sensors/0" DEFER_EMIT) true),
     [EvObjectAdded 1%Z "/sensors/0" (Returns 0%Z)]) /\
  forall n h2,
    repeat_emit_object_added n
      (set_emitremoved
         (initial_object [Samples.Power; Samples.Temperature]
            Samples.good_bus "/sensors/0" DEFER_EMIT) true) h2 =
    (set_emitremoved
       (initial_object [Samples.Power; Samples.Temperature]
          Samples.good_bus "/sensors/0" DEFER_EMIT) true, []).
Proof.
  split; [reflexivity |]. split; [reflexivity |].
  apply (defer_emit_then_emit_once
           [Samples.Power; Samples.Temperature] Samples.good_bus
           "/sensors/0" []
           (initial_object [Samples.Power; Samples.Temperature]
              Samples.good_bus "/sensors/0" DEFER_EMIT)
           [EvModuleCtor "Power" 1%Z "/sensors/0";
            EvModuleCtor "Temperature" 1%Z "/sensors/0";
            EvBusCtor 1%Z]
           []
           (set_emitremoved
              (initial_object [Samples.Power; Samples.Temperature]
                 Samples.good_bus "/sensors/0" DEFER_EMIT) true)
           [EvObjectAdded 1%Z "/sensors/0" (Returns 0%Z)]); reflexivity.
Defined.

(** C1, as stated, fails: on a connection that is gone the object-added
    call comes back with [-ENOTCONN], which is not a successful emission,
    and the destructor still announces removal. *)
Lemma removed_without_successful_added :
  object_ctor [Samples.Power; Samples.Temperature] Samples.disconnected_bus
    "/sensors/0" EMIT_OBJECT_ADDED [] =
    (Normal
       (set_emitremoved
          (initial_object [Samples.Power; Samples.Temperature]
             Samples.disconnected_bus "/sensors/0" EMIT_OBJECT_ADDED) true),
     [EvModuleCtor "Power" 1%Z "/sensors/0";
      EvModuleCtor "Temperature" 1%Z "/sensors/0";
      EvBusCtor 1%Z;
      EvObjectAdded 1%Z "/sensors/0" (Returns (-107)%Z)]) /\
  ~ removal_tracks added_successfully
      [EvModuleCtor "Power" 1%Z "/sensors/0";
       EvModuleCtor "Temperature" 1%Z "/sensors/0";
       EvBusCtor 1%Z;
       EvObjectAdded 1%Z "/sensors/0" (Returns (-107)%Z)]
      (snd (object_dtor
              (set_emitremoved
                 (initial_object [Samples.Power; Samples.Temperature]
                    Samples.disconnected_bus "/sensors/0" EMIT_OBJECT_ADDED)
                 true)
              [EvModuleCtor "Power" 1%Z "/sensors/0";
               EvModuleCtor "Temperature" 1%Z "/sensors/0";
               EvBusCtor 1%Z;
               EvObjectAdded 1%Z "/sensors/0" (Returns (-107)%Z)])).
Proof.
  split.
  - reflexivity.
  - intros [_ [Hremoved _]].
    assert (H : false = true) by (apply Hremoved; reflexivity).
    discriminate H.
Qed.

(** C1, amended. For every object whose construction completed, whatever
    calls of [emit_object_added()] its owner made afterwards, the
    destructor announces removal if and only if an object-added call for
    that object came back earlier (with whatever status), and removal is
    announced at most once over the object's whole life. *)
Theorem removed_iff_added_returned
    Args bus path act h this d0 n h1 this1 d1 h2 :
  object_ctor Args bus path act h = (Normal this, d0) ->
  repeat_emit_object_added n this h1 = (this1, d1) ->
  removal_tracks added_returned (d0 ++ d1) (snd (object_dtor this1 h2)) /\
  count is_object_removed (d0 ++ d1 ++ snd (object_dtor this1 h2)) <= 1.
Proof.
  intros H0 H1.
  apply object_ctor_flag in H0 as [F0 R0].
  apply repeat_emit_object_added_flag in H1 as [F1 R1].
  unfold removal_tracks.
  rewrite !count_app, R0, R1, object_dtor_removed_count.
  rewrite existsb_app, <- F0, <- F1.
  destruct (__sdbusplus_server_object_emitremoved this1); simpl.
  - repeat split; auto.
  - repeat split; auto; discriminate.
Qed.

Lemma removed_iff_added_returned_witness :
  object_ctor [Samples.Power; Samples.Temperature]
    (Samples.the_bus (Samples.bus_recovering "EIO"))
    "/sensors/0" DEFER_EMIT [] =
    (Normal
       (initial_object [Samples.Power; Samples.Temperature]
          (Samples.the_bus (Samples.bus_recovering "EIO"))
          "/sensors/0" DEFER_EMIT),
     [EvModuleCtor "Power" 1%Z "/sensors/0";
      EvModuleCtor "Temperature" 1%Z "/sensors/0";
      EvBusCtor 1%Z]) /\
  repeat_emit_object_added 3
    (initial_object [Samples.Power; Samples.Temperature]
       (Samples.the_bus (Samples.bus_recovering "EIO"))
       "/sensors/0" DEFER_EMIT)
    [EvModuleCtor "Power" 1%Z "/sensors/0";
     EvModuleCtor "Temperature" 1%Z "/sensors/0";
     EvBusCtor 1%Z] =
    (set_emitremoved
       (initial_object [Samples.Power; Samples.Temperature]
          (Samples.the_bus (Samples.bus_recovering "EIO"))
          "/sensors/0" DEFER_EMIT) true,
     [EvObjectAdded 1%Z "/sensors/0" (Throws "EIO");
      EvObjectAdded 1%Z "/sensors/0" (Returns 0%Z)]) /\
  removal_tracks added_returned
    ([EvModuleCtor "Power" 1%Z "/sensors/0";
      EvModuleCtor "Temperature" 1%Z "/sensors/0";
      EvBusCtor 1%Z] ++
     [EvObjectAdded 1%Z "/sensors/0" (Throws "EIO");
      EvObjectAdded 1%Z "/sensors/0" (Returns 0%Z)])
    (snd (object_dtor
            (set_emitremoved
               (initial_object [Samples.Power; Samples.Temperature]
                  (Samples.the_bus (Samples.bus_recovering "EIO"))
                  "/sensors/0" DEFER_EMIT) true)
            [])).
Proof.
  split; [reflexivity |]. split; [reflexivity |].
  apply (removed_iff_added_returned
           [Samples.Power; Samples.Temperature]
           (Samples.the_bus (Samples.bus_recovering "EIO"))
           "/sensors/0" DEFER_EMIT []
           (initial_object [Samples.Power; Samples.Temperature]
              (Samples.the_bus (Samples.bus_recovering "EIO"))
              "/sensors/0" DEFER_EMIT)
           [EvModuleCtor "Power" 1%Z "/sensors/0";
            EvModuleCtor "Temperature" 1%Z "/sensors/0";
            EvBusCtor 1%Z]
           3
           [EvModuleCtor "Power" 1%Z "/sensors/0";
            EvModuleCtor "Temperature" 1%Z "/sensors/0";
            EvBusCtor 1%Z]
           (set_emitremoved
              (initial_object [Samples.Power; Samples.Temperature]
                 (Samples.the_bus (Samples.bus_recovering "EIO"))
                 "/sensors/0" DEFER_EMIT) true)
           [EvObjectAdded 1%Z "/sensors/0" (Throws "EIO");
            EvObjectAdded 1%Z "/sensors/0" (Returns 0%Z)]
           []); reflexivity.
Defined.

(** C6, as stated, fails: on a connection that is gone the object-added
    call fails with status [-ENOTCONN]; nothing reaches the caller of
    [emit_object_added()], the flag is set all the same, and the destructor
    announces removal. *)
Lemma failed_added_status_is_dropped :
  succeeded
    (sd_bus_emit_object_added Samples.disconnected [] 1%Z "/sensors/0")
  = false /\
  emit_object_added
    (initial_object [Samples.Power; Samples.Temperature]
       Samples.disconnected_bus "/sensors/0" DEFER_EMIT) [] =
    (Normal
       (set_emitremoved
          (initial_object [Samples.Power; Samples.Temperature]
             Samples.disconnected_bus "/sensors/0" DEFER_EMIT) true),
     [EvObjectAdded 1%Z "/sensors/0" (Returns (-107)%Z)]) /\
  __sdbusplus_server_object_emitremoved
    (set_emitremoved
       (initial_object [Samples.Power; Samples.Temperature]
          Samples.disconnected_bus "/sensors/0" DEFER_EMIT) true) = true /\
  snd (object_dtor
         (set_emitremoved
            (initial_object [Samples.Power; Samples.Temperature]
               Samples.disconnected_bus "/sensors/0" DEFER_EMIT) true)
         [EvObjectAdded 1%Z "/sensors/0" (Returns (-107)%Z)]) =
    [EvObjectRemoved 1%Z "/sensors/0" (Returns (-107)%Z);
     EvBusDtor 1%Z;
     EvModuleDtor "Temperature";
     EvModuleDtor "Power"].
Proof.
  repeat split; reflexivity.
Qed.

(** C6, amended. When the object-added call of the bus layer throws, the
    exception reaches the caller of [emit_object_added()], and of the
    constructor when the call was made from there; the flag is written only
    after the call has come back, so the object the throwing call leaves
    behind is the object it found, still unannounced, and its destructor
    announces no removal.  When the call comes back, with whatever status,
    the flag is set. *)
Theorem added_emission_throws_or_sets_flag :
  (forall this h e,
     __sdbusplus_server_object_emitremoved this = false ->
     sd_bus_emit_object_added (__sdbusplus_server_object_intf this) h
       (get (__sdbusplus_server_object_bus this))
       (__sdbusplus_server_object_path this) = Throws e ->
     body.emit_object_added this h =
       (Threw e, this,
        [EvObjectAdded (get (__sdbusplus_server_object_bus this))
           (__sdbusplus_server_object_path this) (Throws e)]) /\
     emit_object_added this h =
       (Threw e,
        [EvObjectAdded (get (__sdbusplus_server_object_bus this))
           (__sdbusplus_server_object_path this) (Throws e)]) /\
     __sdbusplus_server_object_emitremoved
       (snd (fst (body.emit_object_added this h))) = false /\
     forall h',
       count is_object_removed
         (snd (object_dtor (snd (fst (body.emit_object_added this h))) h'))
       = 0) /\
  (forall Args bus path h e,
     ctors_succeed bus path h Args = true ->
     sd_bus_emit_object_added (getInterface bus)
       (h ++ map (ctor_event bus path) Args ++ [EvBusCtor (get bus)])
       (get bus) path = Throws e ->
     object_ctor Args bus path EMIT_OBJECT_ADDED h =
       (Threw e,
        map (ctor_event bus path) Args ++
        [EvBusCtor (get bus); EvObjectAdded (get bus) path (Throws e);
         EvBusDtor (get bus)] ++
        map dtor_event (rev Args)) /\
     count is_object_removed
       (snd (object_ctor Args bus path EMIT_OBJECT_ADDED h)) = 0) /\
  (forall this h rc,
     __sdbusplus_server_object_emitremoved this = false ->
     sd_bus_emit_object_added (__sdbusplus_server_object_intf this) h
       (get (__sdbusplus_server_object_bus this))
       (__sdbusplus_server_object_path this) = Returns rc ->
     body.emit_object_added this h =
       (Normal tt, set_emitremoved this true,
        [EvObjectAdded (get (__sdbusplus_server_object_bus this))
           (__sdbusplus_server_object_path this) (Returns rc)]) /\
     emit_object_added this h =
       (Normal (set_emitremoved this true),
        [EvObjectAdded (get (__sdbusplus_server_object_bus this))
           (__sdbusplus_server_object_path this) (Returns rc)])).
Proof.
  split; [| split].
  - intros this h e Hflag Hthrow.
    assert (Hb : body.emit_object_added this h =
                 (Threw e, this,
                  [EvObjectAdded (get (__sdbusplus_server_object_bus this))
                     (__sdbusplus_server_object_path this) (Throws e)])).
    { rewrite body_emit_object_added_eq, Hflag. cbv zeta. rewrite Hthrow.
      reflexivity. }
    split; [exact Hb | split; [| split]].
    + rewrite emit_object_added_eq, Hflag. cbv zeta. rewrite Hthrow.
      reflexivity.
    + rewrite Hb. exact Hflag.
    + intros h'. rewrite Hb. cbn [fst snd].
      rewrite object_dtor_removed_count, Hflag. reflexivity.
  - intros Args bus path h e Hok Hthrow.
    assert (Hc : object_ctor Args bus path EMIT_OBJECT_ADDED h =
                 (Threw e,
                  map (ctor_event bus path) Args ++
                  [EvBusCtor (get bus);
                   EvObjectAdded (get bus) path (Throws e);
                   EvBusDtor (get bus)] ++
                  map dtor_event (rev Args))).
    { rewrite (object_ctor_eq _ _ _ _ _ Hok). cbv zeta.
      rewrite check_action_eq. cbn [__action initial_object].
      rewrite emit_object_added_eq. cbn. rewrite Hthrow.
      rewrite <- app_assoc. reflexivity. }
    split; [exact Hc |].
    rewrite Hc. cbn [snd]. rewrite !count_app.
    rewrite (count_none is_object_removed is_module_ctor);
      [| apply forallb_map_ctor
       | intros [] Hev; try discriminate Hev; reflexivity].
    rewrite (count_none is_object_removed is_teardown
               (map dtor_event (rev Args)));
      [| apply forallb_map_dtor
       | intros [] Hev; try discriminate Hev; reflexivity].
    reflexivity.
  - intros this h rc Hflag Hret. split.
    + rewrite body_emit_object_added_eq, Hflag. cbv zeta. rewrite Hret.
      reflexivity.
    + rewrite emit_object_added_eq, Hflag. cbv zeta. rewrite Hret.
      reflexivity.
Qed.

Lemma added_emission_throws_or_sets_flag_witness :
  sd_bus_emit_object_added (Samples.bus_throwing "EIO") [] 1%Z "/sensors/0"
    = Throws "EIO" /\
  body.emit_object_added
    (initial_object [Samples.Power]
       (Samples.the_bus (Samples.bus_throwing "EIO")) "/sensors/0"
       DEFER_EMIT) [] =
    (Threw "EIO",
     initial_object [Samples.Power]
       (Samples.the_bus (Samples.bus_throwing "EIO")) "/sensors/0"
       DEFER_EMIT,
     [EvObjectAdded 1%Z "/sensors/0" (Throws "EIO")]) /\
  ctors_succeed (Samples.the_bus (Samples.bus_throwing "EIO")) "/sensors/0"
    [] [Samples.Power] = true /\
  object_ctor [Samples.Power]
    (Samples.the_bus (Samples.bus_throwing "EIO")) "/sensors/0"
    EMIT_OBJECT_ADDED [] =
    (Threw "EIO",
     [EvModuleCtor "Power" 1%Z "/sensors/0";
      EvBusCtor 1%Z;
      EvObjectAdded 1%Z "/sensors/0" (Throws "EIO");
      EvBusDtor 1%Z;
      EvModuleDtor "Power"]) /\
  sd_bus_emit_object_added Samples.disconnected [] 1%Z "/sensors/0"
    = Returns (-107)%Z /\
  body.emit_object_added
    (initial_object [Samples.Power] Samples.disconnected_bus "/sensors/0"
       DEFER_EMIT) [] =
    (Normal tt,
     set_emitremoved
       (initial_object [Samples.Power] Samples.disconnected_bus
          "/sensors/0" DEFER_EMIT) true,
     [EvObjectAdded 1%Z "/sensors/0" (Returns (-107)%Z)]).
Proof.
  destruct added_emission_throws_or_sets_flag as (Hcall & Hctor & Hret).
  split; [reflexivity |]. split.
  - apply (Hcall
             (initial_object [Samples.Power]
                (Samples.the_bus (Samples.bus_throwing "EIO")) "/sensors/0"
                DEFER_EMIT) [] "EIO"); reflexivity.
  - split; [reflexivity |]. split.
    + apply (Hctor [Samples.Power]
               (Samples.the_bus (Samples.bus_throwing "EIO")) "/sensors/0"
               [] "EIO"); reflexivity.
    + split; [reflexivity |].
      apply (Hret
               (initial_object [Samples.Power] Samples.disconnected_bus
                  "/sensors/0" DEFER_EMIT) [] (-107)%Z); reflexivity.
Defined.

(** ** Order of events around the aggregate *)

Lemma forallb_weaken (p q : event -> bool) (t : trace) :
  (forall ev, p ev = true -> q ev = true) ->
  forallb p t = true -> forallb q t = true.
Proof.
  intros Hpq Hp. apply forallb_forall. intros ev Hin.
  apply Hpq. revert ev Hin. apply forallb_forall. exact Hp.
Qed.

Lemma check_action_no_module_ctor this h :
  forallb not_module_ctor (snd (check_action this h)) = true.
Proof.
  rewrite check_action_eq. destruct (__action this).
  - rewrite emit_object_added_eq. cbv zeta.
    destruct (__sdbusplus_server_object_emitremoved this); [reflexivity |].
    destruct (sd_bus_emit_object_added _ _ _ _); reflexivity.
  - unfold bind.
    pose proof (emit_added_fold_only_added (compose_base this) h) as Hfold.
    destruct (emit_added_fold (compose_base this) h) as [[u | e |] d];
      simpl in *; try rewrite app_nil_r;
      (eapply forallb_weaken; [| exact Hfold]);
      intros [] Hev; try discriminate Hev; reflexivity.
  - reflexivity.
Qed.

Lemma teardown_no_module_ctor b agg :
  forallb not_module_ctor (EvBusDtor b :: map dtor_event agg) = true.
Proof.
  apply (forallb_weaken is_teardown).
  - intros [] Hev; try discriminate Hev; reflexivity.
  - simpl. apply forallb_map_dtor.
Qed.

Lemma filter_module_ctor_none (t : trace) :
  forallb not_module_ctor t = true -> filter is_module_ctor t = [].
Proof.
  intros H. apply (filter_none _ not_module_ctor); [exact H |].
  intros ev Hev. unfold not_module_ctor in Hev.
  apply negb_true_iff. exact Hev.
Qed.

Lemma built_no_notification bus path Args ev :
  In ev (map (ctor_event bus path) Args ++ [EvBusCtor (get bus)]) ->
  is_notification ev = false.
Proof.
  intros Hin. apply in_app_or in Hin as [Hin | [<- | []]].
  - apply in_map_iff in Hin as (T & <- & _). reflexivity.
  - reflexivity.
Qed.

(** C8. In the trace of any construction, every notification comes after
    the constructors of all of [Args], which have run in list order and
    completed.  In the trace of any destruction, an object-removed call is
    the very first event, carries the stored bus pointer and path, and is
    followed only by the teardown of the bus member and of the modules; and
    whenever the flag is set the destructor starts with that call. *)
Theorem signals_bracket_the_aggregate :
  (forall Args bus path act h d1 ev d2,
     snd (object_ctor Args bus path act h) = d1 ++ ev :: d2 ->
     is_notification ev = true ->
     ctors_succeed bus path h Args = true /\
     filter is_module_ctor d1 = map (ctor_event bus path) Args) /\
  (forall this h d1 ev d2,
     snd (object_dtor this h) = d1 ++ ev :: d2 ->
     is_object_removed ev = true ->
     d1 = [] /\
     (exists r,
        ev = EvObjectRemoved (get (__sdbusplus_server_object_bus this))
               (__sdbusplus_server_object_path this) r) /\
     forallb is_teardown d2 = true) /\
  (forall this h,
     __sdbusplus_server_object_emitremoved this = true ->
     exists r d2,
       snd (object_dtor this h) =
       EvObjectRemoved (get (__sdbusplus_server_object_bus this))
         (__sdbusplus_server_object_path this) r :: d2).
Proof.
  split; [| split].
  - intros Args bus path act h d1 ev d2 Hsplit Hev.
    destruct (ctors_succeed bus path h Args) eqn:Hok.
    + split; [reflexivity |].
      set (built := map (ctor_event bus path) Args ++ [EvBusCtor (get bus)]).
      assert (Hshape : exists suf,
                 snd (object_ctor Args bus path act h) = built ++ suf /\
                 forallb not_module_ctor suf = true).
      { rewrite (object_ctor_eq _ _ _ act _ Hok). cbv zeta. fold built.
        pose proof (check_action_no_module_ctor
                      (initial_object Args bus path act) (h ++ built)) as Hca.
        destruct (check_action _ _) as [[this' | e |] d]; simpl in Hca;
          cbn [snd]; eexists; (split; [reflexivity |]); try exact Hca.
        rewrite forallb_app, Hca. apply teardown_no_module_ctor. }
      destruct Hshape as (suf & Htrace & Hsuf).
      rewrite Htrace in Hsplit. symmetry in Hsplit.
      destruct (split_after_prefix is_notification built suf d1 d2 ev)
        as (s1 & -> & ->); auto.
      { intros x Hx. apply (built_no_notification bus path Args). exact Hx. }
      rewrite forallb_app in Hsuf. apply andb_true_iff in Hsuf as [Hs1 _].
      unfold built. rewrite !filter_app, (filter_module_ctor_none s1 Hs1).
      simpl. rewrite !app_nil_r. apply filter_all. apply forallb_map_ctor.
    + exfalso.
      destruct (ctors_fail_split _ _ _ _ Hok)
        as (pre & X & post & e & -> & Hpre & HX).
      rewrite (object_ctor_compose_fails _ _ _ act _ _ _
                 (compose_fail _ _ _ _ post _ _ Hpre HX)) in Hsplit. cbn [snd] in Hsplit.
      assert (Hin : In ev (map (ctor_event bus path) pre ++
                           ctor_event bus path X :: map dtor_event (rev pre))).
      { rewrite Hsplit. apply in_elt. }
      apply in_app_or in Hin as [Hin | [<- | Hin]].
      * apply in_map_iff in Hin as (T & <- & _). discriminate Hev.
      * discriminate Hev.
      * apply in_map_iff in Hin as (T & <- & _). discriminate Hev.
  - intros this h d1 ev d2 Hsplit Hev.
    assert (Htd : forall b agg t1 t2,
               EvBusDtor b :: map dtor_event agg = t1 ++ ev :: t2 -> False).
    { intros b agg t1 t2 Heq.
      assert (Hin : In ev (EvBusDtor b :: map dtor_event agg)).
      { rewrite Heq. apply in_elt. }
      destruct Hin as [<- | Hin]; [discriminate Hev |].
      apply in_map_iff in Hin as (T & <- & _). discriminate Hev. }
    rewrite object_dtor_eq in Hsplit. cbv zeta in Hsplit.
    destruct (__sdbusplus_server_object_emitremoved this).
    + destruct (sd_bus_emit_object_removed _ _ _ _) as [rc | e];
        cbn [snd] in Hsplit.
      * destruct d1 as [| x d1]; simpl in Hsplit; injection Hsplit as Hx Hrest.
        -- subst ev d2. repeat split; eauto.
           simpl. apply forallb_map_dtor.
        -- exfalso. eapply Htd. exact Hrest.
      * destruct d1 as [| x d1]; simpl in Hsplit; injection Hsplit as Hx Hrest.
        -- subst ev d2. repeat split; eauto.
        -- destruct d1; discriminate Hrest.
    + exfalso. eapply Htd. exact Hsplit.
  - intros this h Hflag. rewrite object_dtor_eq, Hflag. cbv zeta.
    destruct (sd_bus_emit_object_removed _ _ _ _); cbn [snd]; eauto.
Qed.

Lemma signals_bracket_the_aggregate_witness :
  (snd (object_ctor [Samples.Power; Samples.Temperature] Samples.good_bus
          "/sensors/0" EMIT_OBJECT_ADDED []) =
   [EvModuleCtor "Power" 1%Z "/sensors/0";
    EvModuleCtor "Temperature" 1%Z "/sensors/0";
    EvBusCtor 1%Z] ++
   EvObjectAdded 1%Z "/sensors/0" (Returns 0%Z) :: [] /\
   is_notification (EvObjectAdded 1%Z "/sensors/0" (Returns 0%Z)) = true /\
   filter is_module_ctor
     [EvModuleCtor "Power" 1%Z "/sensors/0";
      EvModuleCtor "Temperature" 1%Z "/sensors/0";
      EvBusCtor 1%Z] =
   map (ctor_event Samples.good_bus "/sensors/0")
     [Samples.Power; Samples.Temperature]) /\
  (snd (object_dtor
          (set_emitremoved
             (initial_object [Samples.Power; Samples.Temperature]
                Samples.good_bus "/sensors/0" EMIT_OBJECT_ADDED) true) []) =
   [] ++
   EvObjectRemoved 1%Z "/sensors/0" (Returns 0%Z) ::
   [EvBusDtor 1%Z; EvModuleDtor "Temperature"; EvModuleDtor "Power"] /\
   is_object_removed (EvObjectRemoved 1%Z "/sensors/0" (Returns 0%Z)) = true /\
   forallb is_teardown
     [EvBusDtor 1%Z; EvModuleDtor "Temperature"; EvModuleDtor "Power"] = true).
Proof.
  destruct signals_bracket_the_aggregate as (Hctor & Hdtor & _).
  split.
  - split; [reflexivity |]. split; [reflexivity |].
    apply (Hctor [Samples.Power; Samples.Temperature] Samples.good_bus
             "/sensors/0" EMIT_OBJECT_ADDED []
             [EvModuleCtor "Power" 1%Z "/sensors/0";
              EvModuleCtor "Temperature" 1%Z "/sensors/0";
              EvBusCtor 1%Z]
             (EvObjectAdded 1%Z "/sensors/0" (Returns 0%Z)) []);
      reflexivity.
  - split; [reflexivity |]. split; [reflexivity |].
    apply (Hdtor
             (set_emitremoved
                (initial_object [Samples.Power; Samples.Temperature]
                   Samples.good_bus "/sensors/0" EMIT_OBJECT_ADDED) true)
             [] []
             (EvObjectRemoved 1%Z "/sensors/0" (Returns 0%Z))
             [EvBusDtor 1%Z; EvModuleDtor "Temperature"; EvModuleDtor "Power"]);
      reflexivity.
Defined.

(** C10. Move-constructing from an object whose flag is set leaves the
    flag set in both the new object and the moved-from one; when the two
    are destroyed each destructor's test passes and each makes its own
    object-removed call, the moved-from one with whatever its moved-from
    bus and path members now hold. *)
Theorem move_keeps_flag_in_both
    (moved_from_bus : bus_t -> bus_t) (moved_from_string : string -> string)
    other h :
  __sdbusplus_server_object_emitremoved other = true ->
  exists dst src d,
    object_move_ctor moved_from_bus moved_from_string other h =
      (Normal (dst, src), d) /\
    __sdbusplus_server_object_emitremoved dst = true /\
    __sdbusplus_server_object_emitremoved src = true /\
    (forall h1,
       count is_object_removed (snd (object_dtor dst h1)) = 1 /\
       exists r t,
         snd (object_dtor dst h1) =
         EvObjectRemoved (get (__sdbusplus_server_object_bus other))
           (__sdbusplus_server_object_path other) r :: t) /\
    (forall h2,
       count is_object_removed (snd (object_dtor src h2)) = 1 /\
       exists r t,
         snd (object_dtor src h2) =
         EvObjectRemoved
           (get (moved_from_bus (__sdbusplus_server_object_bus other)))
           (moved_from_string (__sdbusplus_server_object_path other)) r :: t).
Proof.
  intros Hflag. unfold object_move_ctor.
  eexists _, _, _. split; [reflexivity |].
  split; [exact Hflag |]. split; [exact Hflag |].
  split; intros hx; (split;
    [ rewrite object_dtor_removed_count; cbn; rewrite Hflag; reflexivity
    | rewrite object_dtor_eq; cbn; rewrite Hflag;
      destruct (sd_bus_emit_object_removed _ _ _ _); cbn [snd]; eauto ]).
Qed.

Lemma move_keeps_flag_in_both_witness :
  __sdbusplus_server_object_emitremoved
    (set_emitremoved
       (initial_object [] Samples.good_bus "/sensors/0" EMIT_OBJECT_ADDED)
       true) = true /\
  exists dst src d,
    object_move_ctor Samples.null_bus Samples.empty_string
      (set_emitremoved
         (initial_object [] Samples.good_bus "/sensors/0" EMIT_OBJECT_ADDED)
         true) [] = (Normal (dst, src), d) /\
    __sdbusplus_server_object_emitremoved dst = true /\
    __sdbusplus_server_object_emitremoved src = true /\
    (forall h1,
       count is_object_removed (snd (object_dtor dst h1)) = 1 /\
       exists r t,
         snd (object_dtor dst h1) = EvObjectRemoved 1%Z "/sensors/0" r :: t) /\
    (forall h2,
       count is_object_removed (snd (object_dtor src h2)) = 1 /\
       exists r t,
         snd (object_dtor src h2) = EvObjectRemoved 0%Z EmptyString r :: t).
Proof.
  split.
  - reflexivity.
  - apply (move_keeps_flag_in_both Samples.null_bus Samples.empty_string
             (set_emitremoved
                (initial_object [] Samples.good_bus "/sensors/0"
                   EMIT_OBJECT_ADDED) true) []).
    reflexivity.
Defined.

(** C9. Copy construction and copy assignment of [object] are deleted.
    Move construction is the defaulted constructor applied to the
    [compose<Args...>] base and the bus member, and is usable whenever
    every one of [Args...] and [bus::bus] can be initialised from an rvalue.
    But move assignment, although declared [= default], is not usable for
    any [Args...]: the member [const action __action] cannot be assigned
    to, which makes the defaulted operator deleted, and the copy assignment
    operator that would be tried in its place is deleted as well. *)
Theorem object_move_assignment_is_deleted
    (Args : list special_members.type_traits)
    (bus_bus : special_members.type_traits) :
  special_members.copy_construction_usable
    (special_members.object_class Args bus_bus) = false /\
  special_members.copy_assignment_usable
    (special_members.object_class Args bus_bus) = false /\
  special_members.move_assignment_usable
    (special_members.object_class Args bus_bus) = false /\
  special_members.move_construction_usable
    (special_members.object_class Args bus_bus) =
    special_members.move_constructible (special_members.compose_traits Args)
    && special_members.move_constructible bus_bus /\
  (forallb special_members.move_constructible Args = true ->
   special_members.move_constructible bus_bus = true ->
   special_members.move_construction_usable
     (special_members.object_class Args bus_bus) = true).
Proof.
  assert (Hmc : special_members.move_construction_usable
                  (special_members.object_class Args bus_bus) =
                special_members.move_constructible
                  (special_members.compose_traits Args)
                && special_members.move_constructible bus_bus).
  { unfold special_members.move_construction_usable,
      special_members.copy_construction_usable. cbn.
    rewrite !andb_true_r, orb_false_r. reflexivity. }
  split; [reflexivity |]. split; [reflexivity |]. split; [| split].
  - unfold special_members.move_assignment_usable,
      special_members.copy_assignment_usable. cbn.
    rewrite !andb_false_r. reflexivity.
  - exact Hmc.
  - intros HArgs Hbus. rewrite Hmc, Hbus, andb_true_r.
    destruct Args as [| T Rest]; [reflexivity |].
    apply compose_impl_traits_move_constructible in HArgs.
    cbn. unfold special_members.move_construction_usable. cbn.
    rewrite HArgs. reflexivity.
Qed.

Lemma object_move_assignment_is_deleted_witness :
  forallb special_members.move_constructible
    [special_members.MoveOnly; special_members.Plain] = true /\
  special_members.move_constructible special_members.MoveOnly = true /\
  special_members.move_construction_usable
    (special_members.object_class
       [special_members.MoveOnly; special_members.Plain]
       special_members.MoveOnly) = true /\
  special_members.move_assignment_usable
    (special_members.object_class
       [special_members.MoveOnly; special_members.Plain]
       special_members.MoveOnly) = false.
Proof.
  destruct (object_move_assignment_is_deleted
              [special_members.MoveOnly; special_members.Plain]
              special_members.MoveOnly) as (_ & _ & Hma & _ & Hmc).
  split; [reflexivity |]. split; [reflexivity |]. split.
  - apply Hmc; reflexivity.
  - exact Hma.
Defined.

(** * Further properties of the header *)

(** ** More about the aggregate and the member functions *)

Lemma ctors_succeed_app bus path h pre post :
  ctors_succeed bus path h (pre ++ post) =
  ctors_succeed bus path h pre &&
  ctors_succeed bus path (h ++ map (ctor_event bus path) pre) post.
Proof.
  revert h. induction pre as [| T pre IH]; intros h; simpl.
  - rewrite app_nil_r. reflexivity.
  - destruct (intf_ctor T h bus path); [reflexivity |].
    rewrite IH, <- app_assoc. reflexivity.
Qed.

(** An aggregate that failed to come into being failed at one constructor
    and rolled back what stood before it. *)
Lemma compose_inv_threw bus path Args h e d :
  details.compose Args bus path h = (Threw e, d) ->
  exists pre X post,
    Args = pre ++ X :: post /\
    ctors_succeed bus path h pre = true /\
    intf_ctor X (h ++ map (ctor_event bus path) pre) bus path = Some e /\
    d = map (ctor_event bus path) pre ++ ctor_event bus path X ::
        map dtor_event (rev pre).
Proof.
  intros Hc. destruct (ctors_succeed bus path h Args) eqn:Hok.
  - rewrite (compose_ok _ _ _ _ Hok) in Hc. discriminate.
  - destruct (ctors_fail_split _ _ _ _ Hok)
      as (pre & X & post & e' & -> & Hpre & HX).
    rewrite (compose_fail _ _ _ _ post _ _ Hpre HX) in Hc.
    injection Hc as -> <-. exists pre, X, post. auto.
Qed.

Lemma emit_added_fold_fail pre X post e : forall h,
  emit_addeds_succeed h pre = true ->
  intf_emit_added X (h ++ map added_event pre) = Some e ->
  emit_added_fold (pre ++ X :: post) h =
    (Threw e, map added_event pre ++ [added_event X]).
Proof.
  induction pre as [| T pre IH]; intros h Hpre HX; simpl in *.
  - rewrite app_nil_r in HX. apply bind_threw.
    unfold emit_added. rewrite HX. reflexivity.
  - destruct (intf_emit_added T h) eqn:HT; [discriminate |].
    rewrite (bind_normal _ _ h tt [added_event T] (Threw e)
               (map added_event pre ++ [added_event X])).
    + reflexivity.
    + unfold emit_added. rewrite HT. reflexivity.
    + apply IH; [exact Hpre |]. rewrite <- app_assoc. exact HX.
Qed.

(** One call by the owner: nothing when the flag is set; otherwise one bus
    call, and the flag follows whether it came back. *)
Lemma try_emit_object_added_cases this h this1 d1 :
  try_emit_object_added this h = (this1, d1) ->
  (__sdbusplus_server_object_emitremoved this = true /\
   this1 = this /\ d1 = []) \/
  (__sdbusplus_server_object_emitremoved this = false /\
   exists r,
     d1 = [EvObjectAdded (get (__sdbusplus_server_object_bus this))
             (__sdbusplus_server_object_path this) r] /\
     this1 = if returned r then set_emitremoved this true else this).
Proof.
  rewrite try_emit_object_added_eq. rewrite emit_object_added_eq. cbv zeta.
  destruct (__sdbusplus_server_object_emitremoved this).
  - intros H. injection H as <- <-. auto.
  - right. split; [reflexivity |].
    destruct (sd_bus_emit_object_added _ _ _ _) as [rc | e];
      injection H as <- <-; eexists; split; reflexivity.
Qed.

Lemma check_action_inv_normal this h this' d :
  check_action this h = (Normal this', d) ->
  this' = this \/
  (__action this = EMIT_OBJECT_ADDED /\
   __sdbusplus_server_object_emitremoved this = false /\
   this' = set_emitremoved this true /\
   exists rc,
     d = [EvObjectAdded (get (__sdbusplus_server_object_bus this))
            (__sdbusplus_server_object_path this) (Returns rc)]).
Proof.
  rewrite check_action_eq. destruct (__action this) eqn:Hact.
  - rewrite emit_object_added_eq. cbv zeta.
    destruct (__sdbusplus_server_object_emitremoved this).
    + intros H. injection H as <- <-. auto.
    + destruct (sd_bus_emit_object_added _ _ _ _) as [rc | e];
        intros H; [| discriminate].
      injection H as <- <-. right. repeat split; eauto.
  - intros H. apply bind_inv_normal in H as (u & d1 & d2 & _ & Hret & _).
    injection Hret as <- _. auto.
  - intros H. injection H as <- _. auto.
Qed.

Lemma check_action_no_removed this h :
  count is_object_removed (snd (check_action this h)) = 0.
Proof.
  rewrite check_action_eq. destruct (__action this).
  - rewrite emit_object_added_eq. cbv zeta.
    destruct (__sdbusplus_server_object_emitremoved this); [reflexivity |].
    destruct (sd_bus_emit_object_added _ _ _ _); reflexivity.
  - unfold bind.
    pose proof (emit_added_fold_only_added (compose_base this) h) as Hfold.
    destruct (emit_added_fold (compose_base this) h) as [[u | e |] d];
      simpl in *; try rewrite app_nil_r;
      (apply (count_none _ is_interface_added); [exact Hfold |]);
      intros [] Hev; try discriminate Hev; reflexivity.
  - reflexivity.
Qed.

(** ** Construction that fails *)

(** X1. With [EMIT_INTERFACE_ADDED], when the [emit_added()] of the module
    at some position of the list throws, the constructor throws the same
    exception; the interface-added calls of the modules before it have been
    made and stay made, those of the modules after it are never made, and
    the bus member and every module of the list are destroyed, last built
    first. *)
Theorem emit_added_failure_unwinds pre X post bus path h e :
  ctors_succeed bus path h (pre ++ X :: post) = true ->
  emit_addeds_succeed (h ++ built bus path (pre ++ X :: post)) pre = true ->
  intf_emit_added X
    ((h ++ built bus path (pre ++ X :: post)) ++ map added_event pre)
    = Some e ->
  object_ctor (pre ++ X :: post) bus path EMIT_INTERFACE_ADDED h =
    (Threw e,
     built bus path (pre ++ X :: post) ++
     (map added_event pre ++ [added_event X]) ++
     EvBusDtor (get bus) :: map dtor_event (rev (pre ++ X :: post))).
Proof.
  intros Hok Hpre HX.
  rewrite (object_ctor_eq _ _ _ _ _ Hok). cbv zeta.
  fold (built bus path (pre ++ X :: post)).
  rewrite check_action_eq. cbn [__action initial_object compose_base].
  erewrite bind_threw; [reflexivity |].
  apply emit_added_fold_fail; assumption.
Qed.

Lemma emit_added_failure_unwinds_witness :
  ctors_succeed Samples.good_bus "/sensors/0" []
    ([Samples.Power] ++ Samples.Mute :: [Samples.Temperature]) = true /\
  object_ctor ([Samples.Power] ++ Samples.Mute :: [Samples.Temperature])
    Samples.good_bus "/sensors/0" EMIT_INTERFACE_ADDED [] =
    (Threw "emit_interfaces_added",
     [EvModuleCtor "Power" 1%Z "/sensors/0";
      EvModuleCtor "Mute" 1%Z "/sensors/0";
      EvModuleCtor "Temperature" 1%Z "/sensors/0";
      EvBusCtor 1%Z;
      EvInterfaceAdded "Power";
      EvInterfaceAdded "Mute";
      EvBusDtor 1%Z;
      EvModuleDtor "Temperature";
      EvModuleDtor "Mute";
      EvModuleDtor "Power"]).
Proof.
  split; [reflexivity |].
  apply (emit_added_failure_unwinds [Samples.Power] Samples.Mute
           [Samples.Temperature] Samples.good_bus "/sensors/0" []
           "emit_interfaces_added"); reflexivity.
Defined.

(** X2. When the module constructors have completed and the constructor
    body then throws, whatever the action, the constructor throws the same
    exception, the body's events are followed by the destructors of the bus
    member and of all modules, last built first, and no removal is
    announced: the destructor body does not run for an object whose
    constructor did not complete.  With [DEFER_EMIT] the body cannot
    throw. *)
Theorem body_failure_unwinds_everything Args bus path act h e d' :
  ctors_succeed bus path h Args = true ->
  check_action (initial_object Args bus path act)
    (h ++ built bus path Args) = (Threw e, d') ->
  object_ctor Args bus path act h =
    (Threw e,
     built bus path Args ++ d' ++
     EvBusDtor (get bus) :: map dtor_event (rev Args)) /\
  count is_object_removed (snd (object_ctor Args bus path act h)) = 0 /\
  act <> DEFER_EMIT.
Proof.
  intros Hok Hca.
  assert (Hc : object_ctor Args bus path act h =
               (Threw e,
                built bus path Args ++ d' ++
                EvBusDtor (get bus) :: map dtor_event (rev Args))).
  { rewrite (object_ctor_eq _ _ _ act _ Hok). cbv zeta.
    fold (built bus path Args). rewrite Hca. reflexivity. }
  split; [exact Hc | split].
  - pose proof (check_action_no_removed (initial_object Args bus path act)
                  (h ++ built bus path Args)) as Hnr.
    rewrite Hca in Hnr. cbn [snd] in Hnr.
    rewrite Hc. cbn [snd].
    change (EvBusDtor (get bus) :: map dtor_event (rev Args))
      with ([EvBusDtor (get bus)] ++ map dtor_event (rev Args)).
    unfold built. rewrite !count_app, Hnr.
    rewrite (count_none is_object_removed is_module_ctor);
      [| apply forallb_map_ctor
       | intros [] Hev; try discriminate Hev; reflexivity].
    rewrite (count_none is_object_removed is_teardown
               (map dtor_event (rev Args)));
      [| apply forallb_map_dtor
       | intros [] Hev; try discriminate Hev; reflexivity].
    reflexivity.
  - intros ->. rewrite check_action_eq in Hca. discriminate Hca.
Qed.

Lemma body_failure_unwinds_everything_witness :
  ctors_succeed (Samples.the_bus (Samples.bus_throwing "EIO")) "/sensors/0"
    [] [Samples.Power] = true /\
  check_action
    (initial_object [Samples.Power]
       (Samples.the_bus (Samples.bus_throwing "EIO")) "/sensors/0"
       EMIT_OBJECT_ADDED)
    ([] ++ built (Samples.the_bus (Samples.bus_throwing "EIO")) "/sensors/0"
             [Samples.Power]) =
    (Threw "EIO", [EvObjectAdded 1%Z "/sensors/0" (Throws "EIO")]) /\
  object_ctor [Samples.Power]
    (Samples.the_bus (Samples.bus_throwing "EIO")) "/sensors/0"
    EMIT_OBJECT_ADDED [] =
    (Threw "EIO",
     [EvModuleCtor "Power" 1%Z "/sensors/0";
      EvBusCtor 1%Z;
      EvObjectAdded 1%Z "/sensors/0" (Throws "EIO");
      EvBusDtor 1%Z;
      EvModuleDtor "Power"]).
Proof.
  split; [reflexivity |]. split; [reflexivity |].
  apply (body_failure_unwinds_everything [Samples.Power]
           (Samples.the_bus (Samples.bus_throwing "EIO")) "/sensors/0"
           EMIT_OBJECT_ADDED [] "EIO"
           [EvObjectAdded 1%Z "/sensors/0" (Throws "EIO")]); reflexivity.
Defined.

(** X3. Composition of two lists in a row: when the constructors of [A]
    complete, [compose<A..., B...>] does what [compose<B...>] does after
    them; if that completes the aggregate is [A ++ B], and if it throws,
    [A] is destroyed after [B]'s own roll-back, last built first, and the
    same exception goes on. *)
Theorem compose_app A B bus path h :
  ctors_succeed bus path h A = true ->
  (forall agg dB,
     details.compose B bus path (h ++ map (ctor_event bus path) A)
       = (Normal agg, dB) ->
     details.compose (A ++ B) bus path h =
       (Normal (A ++ agg), map (ctor_event bus path) A ++ dB)) /\
  (forall e dB,
     details.compose B bus path (h ++ map (ctor_event bus path) A)
       = (Threw e, dB) ->
     details.compose (A ++ B) bus path h =
       (Threw e, map (ctor_event bus path) A ++ dB ++ map dtor_event (rev A))).
Proof.
  intros HA. split.
  - intros agg dB HB. apply compose_inv_normal in HB as (HokB & -> & ->).
    rewrite compose_ok.
    + rewrite map_app. reflexivity.
    + rewrite ctors_succeed_app, HA, HokB. reflexivity.
  - intros e dB HB.
    apply compose_inv_threw in HB as (pre & X & post & -> & Hpre & HX & ->).
    rewrite app_assoc.
    rewrite (compose_fail bus path (A ++ pre) X post h e).
    + rewrite map_app, rev_app_distr, map_app, <- !app_assoc. reflexivity.
    + rewrite ctors_succeed_app, HA, Hpre. reflexivity.
    + rewrite map_app, app_assoc. exact HX.
Qed.

Lemma compose_app_witness :
  ctors_succeed Samples.good_bus "/sensors/0" [] [Samples.Power] = true /\
  details.compose ([Samples.Power] ++ [Samples.Temperature; Samples.Broken])
    Samples.good_bus "/sensors/0" [] =
    (Threw "add_object_vtable",
     map (ctor_event Samples.good_bus "/sensors/0") [Samples.Power] ++
     [EvModuleCtor "Temperature" 1%Z "/sensors/0";
      EvModuleCtor "Broken" 1%Z "/sensors/0";
      EvModuleDtor "Temperature"] ++
     map dtor_event (rev [Samples.Power])).
Proof.
  split; [reflexivity |].
  apply (compose_app [Samples.Power] [Samples.Temperature; Samples.Broken]
           Samples.good_bus "/sensors/0" []); reflexivity.
Defined.

(** ** The object between construction and destruction *)

Lemma object_ctor_result Args bus path act h this d :
  object_ctor Args bus path act h = (Normal this, d) ->
  this = initial_object Args bus path act \/
  this = set_emitremoved (initial_object Args bus path act) true.
Proof.
  intros H. apply object_ctor_inv_normal in H as (_ & d' & Hca & _).
  apply check_action_inv_normal in Hca as [-> | (_ & _ & -> & _)]; auto.
Qed.

Lemma repeat_emit_object_added_frame n : forall this h this1 d1,
  repeat_emit_object_added n this h = (this1, d1) ->
  (this1 = this \/ this1 = set_emitremoved this true) /\
  (__sdbusplus_server_object_emitremoved this = true ->
   this1 = this /\ d1 = []).
Proof.
  induction n as [| n IH]; intros this h this1 d1 H; simpl in H.
  - injection H as <- <-. auto.
  - destruct (try_emit_object_added this h) as [thisA dA] eqn:HA.
    destruct (repeat_emit_object_added n thisA (h ++ dA)) as [thisB dB] eqn:HB.
    injection H as <- <-.
    apply IH in HB as [HB1 HB2].
    apply try_emit_object_added_cases in HA
      as [(Hflag & -> & ->) | (Hflag & r & -> & ->)].
    + split; [exact HB1 |]. intros _.
      destruct (HB2 Hflag) as [-> ->]. auto.
    + split; [| rewrite Hflag; discriminate].
      destruct (returned r).
      * destruct (HB2 eq_refl) as [-> _]. auto.
      * exact HB1.
Qed.

(** X4. Calls of [emit_object_added()] change nothing of an object but its
    flag, and only from false to true: after any number of calls the object
    is the one before or that one with the flag set, and an object whose
    flag is set comes out unchanged with no event at all. *)
Theorem emit_object_added_only_sets_flag n this h this1 d1 :
  repeat_emit_object_added n this h = (this1, d1) ->
  (this1 = this \/ this1 = set_emitremoved this true) /\
  compose_base this1 = compose_base this /\
  get (__sdbusplus_server_object_bus this1) =
    get (__sdbusplus_server_object_bus this) /\
  __sdbusplus_server_object_path this1 = __sdbusplus_server_object_path this /\
  __action this1 = __action this /\
  (__sdbusplus_server_object_emitremoved this = true ->
   this1 = this /\ d1 = []).
Proof.
  intros H. apply repeat_emit_object_added_frame in H as [Hcase Hset].
  split; [exact Hcase |].
  assert (Hfields : compose_base this1 = compose_base this /\
                    get (__sdbusplus_server_object_bus this1) =
                      get (__sdbusplus_server_object_bus this) /\
                    __sdbusplus_server_object_path this1 =
                      __sdbusplus_server_object_path this /\
                    __action this1 = __action this).
  { destruct Hcase as [-> | ->]; repeat split. }
  tauto.
Qed.

Lemma emit_object_added_only_sets_flag_witness :
  repeat_emit_object_added 3
    (initial_object [Samples.Power] Samples.good_bus "/sensors/0" DEFER_EMIT)
    [] =
    (set_emitremoved
       (initial_object [Samples.Power] Samples.good_bus "/sensors/0"
          DEFER_EMIT) true,
     [EvObjectAdded 1%Z "/sensors/0" (Returns 0%Z)]) /\
  __sdbusplus_server_object_path
    (set_emitremoved
       (initial_object [Samples.Power] Samples.good_bus "/sensors/0"
          DEFER_EMIT) true) =
  __sdbusplus_server_object_path
    (initial_object [Samples.Power] Samples.good_bus "/sensors/0" DEFER_EMIT).
Proof.
  split; [reflexivity |].
  apply (emit_object_added_only_sets_flag 3
           (initial_object [Samples.Power] Samples.good_bus "/sensors/0"
              DEFER_EMIT)
           []
           (set_emitremoved
              (initial_object [Samples.Power] Samples.good_bus "/sensors/0"
                 DEFER_EMIT) true)
           [EvObjectAdded 1%Z "/sensors/0" (Returns 0%Z)]).
  reflexivity.
Defined.

Lemma repeat_emit_object_added_returned_count n : forall this h this1 d1,
  repeat_emit_object_added n this h = (this1, d1) ->
  count added_returned d1 =
    if __sdbusplus_server_object_emitremoved this then 0
    else if __sdbusplus_server_object_emitremoved this1 then 1 else 0.
Proof.
  induction n as [| n IH]; intros this h this1 d1 H; simpl in H.
  - injection H as <- <-.
    destruct (__sdbusplus_server_object_emitremoved this); reflexivity.
  - destruct (try_emit_object_added this h) as [thisA dA] eqn:HA.
    destruct (repeat_emit_object_added n thisA (h ++ dA)) as [thisB dB] eqn:HB.
    injection H as <- <-.
    pose proof (repeat_emit_object_added_frame _ _ _ _ _ HB) as [_ HBset].
    apply IH in HB. rewrite count_app, HB.
    apply try_emit_object_added_cases in HA
      as [(Hflag & -> & ->) | (Hflag & r & -> & ->)].
    + rewrite Hflag. reflexivity.
    + rewrite Hflag. destruct r as [rc | e]; cbn [returned].
      * destruct (HBset eq_refl) as [-> _]. reflexivity.
      * rewrite Hflag. reflexivity.
Qed.

Lemma object_ctor_returned_count Args bus path act h this d :
  object_ctor Args bus path act h = (Normal this, d) ->
  count added_returned d =
    if __sdbusplus_server_object_emitremoved this then 1 else 0.
Proof.
  intros H. apply object_ctor_inv_normal in H as (Hok & d' & Hca & ->).
  rewrite count_app, count_built by reflexivity. simpl.
  rewrite check_action_eq in Hca. cbn [__action initial_object] in Hca.
  destruct act.
  - rewrite emit_object_added_eq in Hca. cbn in Hca.
    destruct (sd_bus_emit_object_added _ _ _ _) as [rc | e]; try discriminate.
    injection Hca as <- <-. reflexivity.
  - apply bind_inv_normal in Hca as (u & d1 & d2 & Hfold & Hret & ->).
    injection Hret as <- <-. rewrite app_nil_r.
    apply emit_added_fold_inv_normal in Hfold. subst d1. cbn.
    apply (count_none _ is_interface_added).
    + apply forallb_map_added.
    + intros [] Hev; try discriminate Hev; reflexivity.
  - injection Hca as <- <-. reflexivity.
Qed.

(** X5. Over the life of an object built by its constructor, the number of
    object-added calls that came back equals the number of object-removed
    calls its destructor makes, and is at most one: however often the owner
    calls [emit_object_added()], and however many of the calls throw, the
    bus layer is never told twice that the object was added. *)
Theorem added_and_removed_calls_balance
    Args bus path act h this d0 n h1 this1 d1 h2 :
  object_ctor Args bus path act h = (Normal this, d0) ->
  repeat_emit_object_added n this h1 = (this1, d1) ->
  count added_returned (d0 ++ d1) =
    count is_object_removed (snd (object_dtor this1 h2)) /\
  count added_returned (d0 ++ d1) <= 1.
Proof.
  intros H0 H1.
  pose proof (repeat_emit_object_added_frame _ _ _ _ _ H1) as [_ Hset].
  apply object_ctor_returned_count in H0.
  apply repeat_emit_object_added_returned_count in H1.
  rewrite count_app, H0, H1, object_dtor_removed_count.
  destruct (__sdbusplus_server_object_emitremoved this) eqn:Hflag.
  - destruct (Hset eq_refl) as [-> _]. rewrite Hflag. auto.
  - destruct (__sdbusplus_server_object_emitremoved this1); auto.
Qed.

Lemma added_and_removed_calls_balance_witness :
  object_ctor [Samples.Power]
    (Samples.the_bus (Samples.bus_recovering "EIO"))
    "/sensors/0" DEFER_EMIT [] =
    (Normal
       (initial_object [Samples.Power]
          (Samples.the_bus (Samples.bus_recovering "EIO"))
          "/sensors/0" DEFER_EMIT),
     [EvModuleCtor "Power" 1%Z "/sensors/0"; EvBusCtor 1%Z]) /\
  repeat_emit_object_added 4
    (initial_object [Samples.Power]
       (Samples.the_bus (Samples.bus_recovering "EIO"))
       "/sensors/0" DEFER_EMIT)
    [EvModuleCtor "Power" 1%Z "/sensors/0"; EvBusCtor 1%Z] =
    (set_emitremoved
       (initial_object [Samples.Power]
          (Samples.the_bus (Samples.bus_recovering "EIO"))
          "/sensors/0" DEFER_EMIT) true,
     [EvObjectAdded 1%Z "/sensors/0" (Throws "EIO");
      EvObjectAdded 1%Z "/sensors/0" (Returns 0%Z)]) /\
  count added_returned
    ([EvModuleCtor "Power" 1%Z "/sensors/0"; EvBusCtor 1%Z] ++
     [EvObjectAdded 1%Z "/sensors/0" (Throws "EIO");
      EvObjectAdded 1%Z "/sensors/0" (Returns 0%Z)]) <= 1.
Proof.
  split; [reflexivity |]. split; [reflexivity |].
  apply (added_and_removed_calls_balance [Samples.Power]
           (Samples.the_bus (Samples.bus_recovering "EIO"))
           "/sensors/0" DEFER_EMIT []
           (initial_object [Samples.Power]
              (Samples.the_bus (Samples.bus_recovering "EIO"))
              "/sensors/0" DEFER_EMIT)
           [EvModuleCtor "Power" 1%Z "/sensors/0"; EvBusCtor 1%Z]
           4
           [EvModuleCtor "Power" 1%Z "/sensors/0"; EvBusCtor 1%Z]
           (set_emitremoved
              (initial_object [Samples.Power]
                 (Samples.the_bus (Samples.bus_recovering "EIO"))
                 "/sensors/0" DEFER_EMIT) true)
           [EvObjectAdded 1%Z "/sensors/0" (Throws "EIO");
            EvObjectAdded 1%Z "/sensors/0" (Returns 0%Z)]
           []); reflexivity.
Defined.

Lemma repeat_emit_object_added_targets n : forall this h this1 d1 ev tgt,
  repeat_emit_object_added n this h = (this1, d1) ->
  In ev d1 ->
  bus_call_target ev = Some tgt ->
  tgt = (get (__sdbusplus_server_object_bus this),
         __sdbusplus_server_object_path this).
Proof.
  induction n as [| n IH]; intros this h this1 d1 ev tgt H Hin Htgt;
    simpl in H.
  - injection H as <- <-. destruct Hin.
  - destruct (try_emit_object_added this h) as [thisA dA] eqn:HA.
    destruct (repeat_emit_object_added n thisA (h ++ dA)) as [thisB dB] eqn:HB.
    injection H as <- <-.
    apply try_emit_object_added_cases in HA
      as [(Hflag & -> & ->) | (Hflag & r & -> & ->)].
    + eapply IH; eauto.
    + apply in_app_or in Hin as [[<- | []] | Hin].
      * simpl in Htgt. injection Htgt as <-. reflexivity.
      * rewrite (IH _ _ _ _ _ _ HB Hin Htgt).
        destruct (returned r); reflexivity.
Qed.

(** X6. For an object built by its constructor and not moved from, every
    whole-object call made on the bus layer by the constructor, by any
    number of [emit_object_added()] calls and by the destructor, added or
    removed, carries the bus pointer and the path the constructor was
    given. *)
Theorem bus_calls_carry_constructor_arguments
    Args bus path act h this d0 n h1 this1 d1 h2 ev tgt :
  object_ctor Args bus path act h = (Normal this, d0) ->
  repeat_emit_object_added n this h1 = (this1, d1) ->
  In ev (d0 ++ d1 ++ snd (object_dtor this1 h2)) ->
  bus_call_target ev = Some tgt ->
  tgt = (get bus, path).
Proof.
  intros H0 H1 Hin Htgt.
  pose proof (object_ctor_result _ _ _ _ _ _ _ H0) as Hthis.
  assert (Hfields : get (__sdbusplus_server_object_bus this) = get bus /\
                    __sdbusplus_server_object_path this = path).
  { destruct Hthis as [-> | ->]; auto. }
  destruct Hfields as [Hb Hp].
  apply in_app_or in Hin as [Hin | Hin];
    [| apply in_app_or in Hin as [Hin | Hin]].
  - apply object_ctor_inv_normal in H0 as (_ & d' & Hca & ->).
    apply in_app_or in Hin as [Hin | Hin].
    + apply in_app_or in Hin as [Hin | [<- | []]]; [| discriminate Htgt].
      apply in_map_iff in Hin as (T & <- & _). discriminate Htgt.
    + rewrite check_action_eq in Hca. cbn [__action initial_object] in Hca.
      destruct act.
      * rewrite emit_object_added_eq in Hca. cbn in Hca.
        destruct (sd_bus_emit_object_added _ _ _ _) as [rc | e];
          try discriminate.
        injection Hca as _ <-. destruct Hin as [<- | []].
        simpl in Htgt. injection Htgt as <-. reflexivity.
      * apply bind_inv_normal in Hca as (u & da & db & Hfold & Hret & ->).
        injection Hret as _ <-. rewrite app_nil_r in Hin.
        apply emit_added_fold_inv_normal in Hfold. subst da.
        apply in_map_iff in Hin as (T & <- & _). discriminate Htgt.
      * injection Hca as _ <-. destruct Hin.
  - rewrite (repeat_emit_object_added_targets _ _ _ _ _ _ _ H1 Hin Htgt).
    rewrite Hb, Hp. reflexivity.
  - pose proof (repeat_emit_object_added_frame _ _ _ _ _ H1) as [Hcase _].
    assert (Hfields1 : get (__sdbusplus_server_object_bus this1) = get bus /\
                       __sdbusplus_server_object_path this1 = path).
    { destruct Hcase as [-> | ->]; auto. }
    destruct Hfields1 as [Hb1 Hp1].
    rewrite object_dtor_eq in Hin. cbv zeta in Hin. rewrite Hb1, Hp1 in Hin.
    assert (Htd : forall agg,
               In ev (EvBusDtor (get bus) :: map dtor_event agg) -> False).
    { intros agg [<- | Hin']; [discriminate Htgt |].
      apply in_map_iff in Hin' as (T & <- & _). discriminate Htgt. }
    destruct (__sdbusplus_server_object_emitremoved this1).
    + destruct (sd_bus_emit_object_removed _ _ _ _) as [rc | e];
        cbn [snd] in Hin; destruct Hin as [<- | Hin].
      * simpl in Htgt. injection Htgt as <-. reflexivity.
      * exfalso. eapply Htd. exact Hin.
      * simpl in Htgt. injection Htgt as <-. reflexivity.
      * destruct Hin.
    + exfalso. eapply Htd. exact Hin.
Qed.

Lemma bus_calls_carry_constructor_arguments_witness :
  object_ctor [Samples.Power] Samples.good_bus "/sensors/0"
    EMIT_OBJECT_ADDED [] =
    (Normal
       (set_emitremoved
          (initial_object [Samples.Power] Samples.good_bus "/sensors/0"
             EMIT_OBJECT_ADDED) true),
     [EvModuleCtor "Power" 1%Z "/sensors/0"; EvBusCtor 1%Z;
      EvObjectAdded 1%Z "/sensors/0" (Returns 0%Z)]) /\
  bus_call_target (EvObjectRemoved 1%Z "/sensors/0" (Returns 0%Z)) =
    Some (1%Z, "/sensors/0") /\
  (1%Z, "/sensors/0") = (get Samples.good_bus, "/sensors/0").
Proof.
  split; [reflexivity |]. split; [reflexivity |].
  apply (bus_calls_carry_constructor_arguments [Samples.Power]
           Samples.good_bus "/sensors/0" EMIT_OBJECT_ADDED []
           (set_emitremoved
              (initial_object [Samples.Power] Samples.good_bus "/sensors/0"
                 EMIT_OBJECT_ADDED) true)
           [EvModuleCtor "Power" 1%Z "/sensors/0"; EvBusCtor 1%Z;
            EvObjectAdded 1%Z "/sensors/0" (Returns 0%Z)]
           0 []
           (set_emitremoved
              (initial_object [Samples.Power] Samples.good_bus "/sensors/0"
                 EMIT_OBJECT_ADDED) true)
           [] []
           (EvObjectRemoved 1%Z "/sensors/0" (Returns 0%Z))
           (1%Z, "/sensors/0")).
  - reflexivity.
  - reflexivity.
  - simpl. auto.
  - reflexivity.
Defined.

(** X7. A call of [emit_object_added()] that throws is not remembered: as
    long as the bus layer keeps throwing, each of the owner's calls makes a
    fresh object-added call, the object stays as it was, and its destructor
    announces no removal. *)
Theorem throwing_emission_is_retried n this h :
  __sdbusplus_server_object_emitremoved this = false ->
  (forall h',
     returned
       (sd_bus_emit_object_added (__sdbusplus_server_object_intf this) h'
          (get (__sdbusplus_server_object_bus this))
          (__sdbusplus_server_object_path this)) = false) ->
  fst (repeat_emit_object_added n this h) = this /\
  count is_object_added (snd (repeat_emit_object_added n this h)) = n /\
  List.length (snd (repeat_emit_object_added n this h)) = n /\
  forall h', count is_object_removed (snd (object_dtor this h')) = 0.
Proof.
  intros Hflag Hthrow.
  assert (Hrun : forall h0,
             fst (repeat_emit_object_added n this h0) = this /\
             count is_object_added (snd (repeat_emit_object_added n this h0)) = n /\
             List.length (snd (repeat_emit_object_added n this h0)) = n).
  { induction n as [| n IH]; intros h0; simpl.
    - auto.
    - rewrite try_emit_object_added_eq. rewrite emit_object_added_eq, Hflag.
      cbv zeta. specialize (Hthrow h0).
      destruct (sd_bus_emit_object_added _ h0 _ _) as [rc | e];
        [discriminate Hthrow |].
      specialize (IH (h0 ++ [EvObjectAdded
                               (get (__sdbusplus_server_object_bus this))
                               (__sdbusplus_server_object_path this)
                               (Throws e)])).
      destruct (repeat_emit_object_added n this _) as [this2 d2].
      simpl in *. destruct IH as (-> & Hc & Hl).
      unfold count in *. simpl. rewrite Hc, Hl. auto. }
  destruct (Hrun h) as (H1 & H2 & H3).
  repeat split; auto.
  intros h'. rewrite object_dtor_removed_count, Hflag. reflexivity.
Qed.

Lemma throwing_emission_is_retried_witness :
  __sdbusplus_server_object_emitremoved
    (initial_object [Samples.Power]
       (Samples.the_bus (Samples.bus_throwing "EIO")) "/sensors/0"
       DEFER_EMIT) = false /\
  snd (repeat_emit_object_added 3
         (initial_object [Samples.Power]
            (Samples.the_bus (Samples.bus_throwing "EIO")) "/sensors/0"
            DEFER_EMIT) []) =
    [EvObjectAdded 1%Z "/sensors/0" (Throws "EIO");
     EvObjectAdded 1%Z "/sensors/0" (Throws "EIO");
     EvObjectAdded 1%Z "/sensors/0" (Throws "EIO")] /\
  count is_object_added
    (snd (repeat_emit_object_added 3
            (initial_object [Samples.Power]
               (Samples.the_bus (Samples.bus_throwing "EIO")) "/sensors/0"
               DEFER_EMIT) [])) = 3.
Proof.
  split; [reflexivity |]. split; [reflexivity |].
  apply (throwing_emission_is_retried 3
           (initial_object [Samples.Power]
              (Samples.the_bus (Samples.bus_throwing "EIO")) "/sensors/0"
              DEFER_EMIT) []).
  - reflexivity.
  - intros h'. reflexivity.
Defined.

(** X8. [check_action()] is a public member, so the owner can call it again
    on a constructed object.  For an object built with [EMIT_OBJECT_ADDED]
    or [DEFER_EMIT] the second call does nothing, whatever was announced in
    between; for one built with [EMIT_INTERFACE_ADDED] it makes the
    interface-added call of every module over again, in list order. *)
Theorem check_action_called_again
    Args bus path act h this d n h1 this1 d1 h2 :
  object_ctor Args bus path act h = (Normal this, d) ->
  repeat_emit_object_added n this h1 = (this1, d1) ->
  match act with
  | EMIT_OBJECT_ADDED => check_action this1 h2 = (Normal this1, [])
  | DEFER_EMIT => check_action this1 h2 = (Normal this1, [])
  | EMIT_INTERFACE_ADDED =>
      emit_addeds_succeed h2 Args = true ->
      check_action this1 h2 = (Normal this1, map added_event Args)
  end.
Proof.
  intros H0 H1.
  pose proof (object_ctor_flag _ _ _ _ _ _ _ H0) as [Hflag _].
  pose proof (object_ctor_result _ _ _ _ _ _ _ H0) as Hthis.
  pose proof (repeat_emit_object_added_frame _ _ _ _ _ H1) as [Hcase Hset].
  assert (Hact : __action this1 = act /\ compose_base this1 = Args).
  { destruct Hcase as [-> | ->]; destruct Hthis as [-> | ->]; auto. }
  destruct Hact as [Hact Hbase].
  rewrite check_action_eq. rewrite Hact. destruct act.
  - assert (Hset1 : __sdbusplus_server_object_emitremoved this1 = true).
    { apply object_ctor_inv_normal in H0 as (_ & d' & Hca & _).
      rewrite check_action_eq in Hca. cbn [__action initial_object] in Hca.
      rewrite emit_object_added_eq in Hca. cbn in Hca.
      destruct (sd_bus_emit_object_added _ _ _ _); try discriminate.
      injection Hca as <- _.
      destruct (Hset eq_refl) as [-> _]. reflexivity. }
    rewrite emit_object_added_eq, Hset1. reflexivity.
  - intros Hok. rewrite Hbase.
    rewrite (bind_normal _ _ h2 tt (map added_event Args) (Normal this1) []);
      [rewrite app_nil_r; reflexivity
      | apply emit_added_fold_ok; exact Hok
      | reflexivity].
  - reflexivity.
Qed.

Lemma check_action_called_again_witness :
  object_ctor [Samples.Power; Samples.Temperature] Samples.good_bus
    "/sensors/0" EMIT_INTERFACE_ADDED [] =
    (Normal
       (initial_object [Samples.Power; Samples.Temperature]
          Samples.good_bus "/sensors/0" EMIT_INTERFACE_ADDED),
     [EvModuleCtor "Power" 1%Z "/sensors/0";
      EvModuleCtor "Temperature" 1%Z "/sensors/0";
      EvBusCtor 1%Z;
      EvInterfaceAdded "Power";
      EvInterfaceAdded "Temperature"]) /\
  emit_addeds_succeed [] [Samples.Power; Samples.Temperature] = true /\
  check_action
    (initial_object [Samples.Power; Samples.Temperature]
       Samples.good_bus "/sensors/0" EMIT_INTERFACE_ADDED) [] =
    (Normal
       (initial_object [Samples.Power; Samples.Temperature]
          Samples.good_bus "/sensors/0" EMIT_INTERFACE_ADDED),
     [EvInterfaceAdded "Power"; EvInterfaceAdded "Temperature"]).
Proof.
  split; [reflexivity |]. split; [reflexivity |].
  apply (check_action_called_again
           [Samples.Power; Samples.Temperature] Samples.good_bus
           "/sensors/0" EMIT_INTERFACE_ADDED []
           (initial_object [Samples.Power; Samples.Temperature]
              Samples.good_bus "/sensors/0" EMIT_INTERFACE_ADDED)
           [EvModuleCtor "Power" 1%Z "/sensors/0";
            EvModuleCtor "Temperature" 1%Z "/sensors/0";
            EvBusCtor 1%Z;
            EvInterfaceAdded "Power";
            EvInterfaceAdded "Temperature"]
           0 []
           (initial_object [Samples.Power; Samples.Temperature]
              Samples.good_bus "/sensors/0" EMIT_INTERFACE_ADDED)
           [] []); reflexivity.
Defined.

(** X9. The constructor taking [bool deferSignal] never makes an
    interface-added call; when it completes, the object is announced
    exactly when [deferSignal] is false, with one object-added call in that
    case and none otherwise. *)
Theorem defer_signal_overload Args bus path deferSignal h this d :
  object_ctor_defer Args bus path deferSignal h = (Normal this, d) ->
  __sdbusplus_server_object_emitremoved this = negb deferSignal /\
  count is_object_added d = (if deferSignal then 0 else 1) /\
  count is_interface_added d = 0 /\
  __action this = (if deferSignal then DEFER_EMIT else EMIT_OBJECT_ADDED).
Proof.
  unfold object_ctor_defer. intros H.
  apply object_ctor_inv_normal in H as (Hok & d' & Hca & ->).
  rewrite check_action_eq in Hca. cbn [__action initial_object] in Hca.
  rewrite (count_app is_object_added), (count_app is_interface_added).
  rewrite !count_built by reflexivity.
  destruct deferSignal.
  - injection Hca as <- <-. repeat split.
  - rewrite emit_object_added_eq in Hca. cbn in Hca.
    destruct (sd_bus_emit_object_added _ _ _ _) as [rc | e]; try discriminate.
    injection Hca as <- <-. repeat split.
Qed.

Lemma defer_signal_overload_witness :
  object_ctor_defer [Samples.Power] Samples.good_bus "/sensors/0" false [] =
    (Normal
       (set_emitremoved
          (initial_object [Samples.Power] Samples.good_bus "/sensors/0"
             EMIT_OBJECT_ADDED) true),
     [EvModuleCtor "Power" 1%Z "/sensors/0"; EvBusCtor 1%Z;
      EvObjectAdded 1%Z "/sensors/0" (Returns 0%Z)]) /\
  __sdbusplus_server_object_emitremoved
    (set_emitremoved
       (initial_object [Samples.Power] Samples.good_bus "/sensors/0"
          EMIT_OBJECT_ADDED) true) = negb false.
Proof.
  split; [reflexivity |].
  apply (defer_signal_overload [Samples.Power] Samples.good_bus "/sensors/0"
           false []
           (set_emitremoved
              (initial_object [Samples.Power] Samples.good_bus "/sensors/0"
                 EMIT_OBJECT_ADDED) true)
           [EvModuleCtor "Power" 1%Z "/sensors/0"; EvBusCtor 1%Z;
            EvObjectAdded 1%Z "/sensors/0" (Returns 0%Z)]).
  reflexivity.
Defined.



(** X11. Destruction mirrors construction.  For an object built by its
    constructor, the module constructors in the construction trace are those
    of the list in order, and when the destructor completes its teardown is
    the bus member followed by the destructors of the same modules in
    reverse order. *)
Theorem destruction_mirrors_construction
    Args bus path act h this d0 n h1 this1 d1 h2 u :
  object_ctor Args bus path act h = (Normal this, d0) ->
  repeat_emit_object_added n this h1 = (this1, d1) ->
  fst (object_dtor this1 h2) = Normal u ->
  filter is_module_ctor d0 = map (ctor_event bus path) Args /\
  filter is_teardown (snd (object_dtor this1 h2)) =
    EvBusDtor (get bus) :: map dtor_event (rev Args).
Proof.
  intros H0 H1 Hdone.
  pose proof (object_ctor_result _ _ _ _ _ _ _ H0) as Hthis.
  pose proof (repeat_emit_object_added_frame _ _ _ _ _ H1) as [Hcase _].
  assert (Hfields : compose_base this1 = Args /\
                    get (__sdbusplus_server_object_bus this1) = get bus).
  { destruct Hcase as [-> | ->]; destruct Hthis as [-> | ->]; auto. }
  destruct Hfields as [Hbase Hb].
  split.
  - apply object_ctor_inv_normal in H0 as (_ & d' & Hca & ->).
    pose proof (check_action_no_module_ctor
                  (initial_object Args bus path act)
                  (h ++ map (ctor_event bus path) Args ++ [EvBusCtor (get bus)]))
      as Hnc.
    rewrite Hca in Hnc. cbn [snd] in Hnc.
    rewrite !filter_app, (filter_module_ctor_none d' Hnc). simpl.
    rewrite !app_nil_r. apply filter_all. apply forallb_map_ctor.
  - rewrite object_dtor_eq in Hdone |- *. cbv zeta in Hdone |- *.
    assert (Htd : filter is_teardown
                    (EvBusDtor (get bus) :: map dtor_event (rev Args)) =
                  EvBusDtor (get bus) :: map dtor_event (rev Args)).
    { apply filter_all. simpl. apply forallb_map_dtor. }
    destruct (__sdbusplus_server_object_emitremoved this1).
    + destruct (sd_bus_emit_object_removed _ _ _ _) as [rc | e];
        cbn [fst snd] in Hdone |- *; [| discriminate Hdone].
      rewrite Hbase, Hb.
      change (filter is_teardown (EvObjectRemoved ?b ?p ?r :: ?t))
        with (filter is_teardown t).
      exact Htd.
    + cbn [snd]. rewrite Hbase, Hb. exact Htd.
Qed.

Lemma destruction_mirrors_construction_witness :
  object_ctor [Samples.Power; Samples.Temperature] Samples.good_bus
    "/sensors/0" EMIT_OBJECT_ADDED [] =
    (Normal
       (set_emitremoved
          (initial_object [Samples.Power; Samples.Temperature]
             Samples.good_bus "/sensors/0" EMIT_OBJECT_ADDED) true),
     [EvModuleCtor "Power" 1%Z "/sensors/0";
      EvModuleCtor "Temperature" 1%Z "/sensors/0";
      EvBusCtor 1%Z;
      EvObjectAdded 1%Z "/sensors/0" (Returns 0%Z)]) /\
  fst (object_dtor
         (set_emitremoved
            (initial_object [Samples.Power; Samples.Temperature]
               Samples.good_bus "/sensors/0" EMIT_OBJECT_ADDED) true)
         []) = Normal tt /\
  filter is_teardown
    (snd (object_dtor
            (set_emitremoved
               (initial_object [Samples.Power; Samples.Temperature]
                  Samples.good_bus "/sensors/0" EMIT_OBJECT_ADDED) true)
            [])) =
    [EvBusDtor 1%Z; EvModuleDtor "Temperature"; EvModuleDtor "Power"].
Proof.
  split; [reflexivity |]. split; [reflexivity |].
  apply (destruction_mirrors_construction
           [Samples.Power; Samples.Temperature] Samples.good_bus
           "/sensors/0" EMIT_OBJECT_ADDED []
           (set_emitremoved
              (initial_object [Samples.Power; Samples.Temperature]
                 Samples.good_bus "/sensors/0" EMIT_OBJECT_ADDED) true)
           [EvModuleCtor "Power" 1%Z "/sensors/0";
            EvModuleCtor "Temperature" 1%Z "/sensors/0";
            EvBusCtor 1%Z;
            EvObjectAdded 1%Z "/sensors/0" (Returns 0%Z)]
           0 []
           (set_emitremoved
              (initial_object [Samples.Power; Samples.Temperature]
                 Samples.good_bus "/sensors/0" EMIT_OBJECT_ADDED) true)
           [] [] tt); reflexivity.
Defined.

(** X12. Moving an object that has not been announced makes no bus call and
    leaves both objects unannounced; when the owner then announces the new
    object, the object-added call carries the original bus pointer and
    path, only the new object's destructor announces removal, and the
    moved-from object's destructor announces none. *)
Theorem move_then_announce
    (moved_from_bus : bus_t -> bus_t) (moved_from_string : string -> string)
    other h dst src d h1 dst1 d1 :
  __sdbusplus_server_object_emitremoved other = false ->
  object_move_ctor moved_from_bus moved_from_string other h =
    (Normal (dst, src), d) ->
  emit_object_added dst h1 = (Normal dst1, d1) ->
  count is_notification d = 0 /\
  (exists rc,
     d1 = [EvObjectAdded (get (__sdbusplus_server_object_bus other))
             (__sdbusplus_server_object_path other) (Returns rc)]) /\
  (forall h2, count is_object_removed (snd (object_dtor dst1 h2)) = 1) /\
  (forall h3, count is_object_removed (snd (object_dtor src h3)) = 0).
Proof.
  intros Hflag Hmove Hemit. unfold object_move_ctor in Hmove.
  injection Hmove as <- <- <-.
  rewrite emit_object_added_eq in Hemit. cbn in Hemit.
  rewrite Hflag in Hemit.
  destruct (sd_bus_emit_object_added _ _ _ _) as [rc | e]; try discriminate.
  injection Hemit as <- <-.
  split; [| split; [| split]].
  - apply (count_none _ (fun ev => match ev with
                                   | EvModuleMove _ => true
                                   | _ => false
                                   end)).
    + induction (compose_base other); simpl; auto.
    + intros [] Hev; try discriminate Hev; reflexivity.
  - exists rc. reflexivity.
  - intros h2. rewrite object_dtor_removed_count. reflexivity.
  - intros h3. rewrite object_dtor_removed_count. cbn. rewrite Hflag.
    reflexivity.
Qed.

Lemma move_then_announce_witness :
  __sdbusplus_server_object_emitremoved
    (initial_object [] Samples.good_bus "/sensors/0" DEFER_EMIT) = false /\
  emit_object_added
    (initial_object [] Samples.good_bus "/sensors/0" DEFER_EMIT) [] =
    (Normal
       (set_emitremoved
          (initial_object [] Samples.good_bus "/sensors/0" DEFER_EMIT) true),
     [EvObjectAdded 1%Z "/sensors/0" (Returns 0%Z)]) /\
  forall h3,
    count is_object_removed
      (snd (object_dtor
              {| compose_base := [];
                 __sdbusplus_server_object_bus :=
                   Samples.null_bus
                     {| get := 1%Z; getInterface := Samples.bus_returning 0%Z |};
                 __sdbusplus_server_object_path :=
                   Samples.empty_string "/sensors/0";
                 __sdbusplus_server_object_emitremoved := false;
                 __sdbusplus_server_object_intf := Samples.bus_returning 0%Z;
                 __action := DEFER_EMIT |}
              h3)) = 0.
Proof.
  split; [reflexivity |]. split; [reflexivity |].
  apply (move_then_announce Samples.null_bus Samples.empty_string
           (initial_object [] Samples.good_bus "/sensors/0" DEFER_EMIT) []
           (initial_object [] Samples.good_bus "/sensors/0" DEFER_EMIT)
           {| compose_base := [];
              __sdbusplus_server_object_bus :=
                Samples.null_bus
                  {| get := 1%Z; getInterface := Samples.bus_returning 0%Z |};
              __sdbusplus_server_object_path :=
                Samples.empty_string "/sensors/0";
              __sdbusplus_server_object_emitremoved := false;
              __sdbusplus_server_object_intf := Samples.bus_returning 0%Z;
              __action := DEFER_EMIT |}
           [] []
           (set_emitremoved
              (initial_object [] Samples.good_bus "/sensors/0" DEFER_EMIT)
              true)
           [EvObjectAdded 1%Z "/sensors/0" (Returns 0%Z)]); reflexivity.
Defined.
